(** * picpocket: the CLIP ensemble classifier worker

    A shallow embedding of [src/python/classifier.py].

    - Tensors are lists of scalars.  The scalar arithmetic of the tensor
      library is an interface ([Arith]); the program is written once over
      that interface, and the theorems hold for every instance of it.  The
      concrete runs use IEEE binary64 numbers ([float_arith]), where a
      quotient 0/0 really is a NaN.
    - The external collaborators (JSON decoder, model loader, text and image
      towers, image decoder, accelerator probes) are the fields of a [World].
      A collaborator that raises returns [inl] with the [str()] of its
      exception.
    - Output and collaborator calls are recorded in an event trace; Python
      exceptions and [sys.exit] are outcomes of a small monad [M].
    - The exceptions the tensor library itself raises inside
      [classify_image] (shape mismatch, index past the end, [topk] out of
      range, [max] of nothing) are modelled with a fixed message each; the
      code only ever turns them into the error string of the image.
    - The request document is modelled with the types of its schema
      (config object, categories object of string lists, images list of
      strings, integer topK); every key is optional, as the code reads each of
      them with [.get] and a default.  Documents of other shapes are outside
      this model, except that a JSON value that is not an object makes
      [request.get] raise. *)

From Stdlib Require Import String ZArith Lia Bool Arith List.
From Stdlib Require Import Permutation Sorted.
From Stdlib Require Import Floats Uint63.
Import ListNotations.

Open Scope string_scope.
Open Scope list_scope.

Set Implicit Arguments.

(** ** Scalar arithmetic of the tensor library *)

Class Arith (F : Type) : Type := {
  fzero : F;
  fadd : F -> F -> F;
  fmul : F -> F -> F;
  fdiv : F -> F -> F;          (* total: a tensor division never raises *)
  fsqrt : F -> F;
  fofnat : nat -> F;
  fgt : F -> F -> bool;        (* x > y *)
  feq : F -> F -> bool         (* x == y, numerical equality *)
}.

(** IEEE binary64, the numbers the concrete runs below use. *)
#[export] Instance float_arith : Arith float := {
  fzero := 0%float;
  fadd := PrimFloat.add;
  fmul := PrimFloat.mul;
  fdiv := PrimFloat.div;
  fsqrt := PrimFloat.sqrt;
  fofnat := fun n => PrimFloat.of_uint63 (Uint63.of_Z (Z.of_nat n));
  fgt := fun x y => PrimFloat.ltb y x;
  feq := PrimFloat.eqb
}.

(** ** Python dictionaries with insertion order *)

Module Dict.

Definition t (V : Type) : Type := list (string * V).

Fixpoint get {V} (k : string) (d : t V) : option V :=
  match d with
  | [] => None
  | (k', v) :: d' => if String.eqb k k' then Some v else get k d'
  end.

(** [d[k] = v]: an existing key keeps its position, a new key goes last. *)
Fixpoint set {V} (k : string) (v : V) (d : t V) : t V :=
  match d with
  | [] => [(k, v)]
  | (k', v') :: d' =>
      if String.eqb k k' then (k', v) :: d' else (k', v') :: set k v d'
  end.

Definition keys {V} (d : t V) : list string := map fst d.

(** [defaultdict(list)]: [d[k].append(x)]. *)
Definition append {V} (k : string) (x : V) (d : t (list V)) : t (list V) :=
  match get k d with
  | Some l => set k (l ++ [x]) d
  | None => set k [x] d
  end.

End Dict.

(** [enumerate(l)] *)
Definition enumerate {A} (l : list A) : list (nat * A) :=
  combine (seq 0 (length l)) l.

(** ** The request document *)

(** The value under the key [command]: a string, or any other JSON value,
    of which only Python's [str()] rendering is ever used. *)
Inductive Command :=
| CmdStr (s : string)
| CmdOther (rendering : string).

Definition command_str (c : Command) : string :=
  match c with
  | CmdStr s => s
  | CmdOther r => r
  end.

(** [command == name] *)
Definition command_is (c : Command) (name : string) : bool :=
  match c with
  | CmdStr s => String.eqb s name
  | CmdOther _ => false
  end.

(** An absent key is [None]. *)
Record Config := {
  cfg_model : option string;
  cfg_categories : option (Dict.t (list string));
  cfg_topK : option Z
}.

Record Request := {
  req_command : option Command;
  req_config : option Config;
  req_images : option (list string)
}.

(** What [json.loads] makes of the input. *)
Inductive Parsed :=
| JSONDecodeError (msg : string)
| NotAnObject (type_name : string)
| Document (request : Request).

(** [x.get(key, default)] on an optional field. *)
Definition get_or {A} (field : option A) (default : A) : A :=
  match field with
  | Some a => a
  | None => default
  end.

(** ** Messages, events and the effect monad *)

Section Worker.

Context {F : Type} {AF : Arith F}.
Context {Image : Type}.

Definition Scores := Dict.t F.

Record ResultEntry := {
  r_path : string;
  r_category : option string;
  r_confidence : option F;
  r_scores : option Scores
}.

Record ErrorEntry := {
  e_path : string;
  e_error : string
}.

Record Checks := {
  c_torch : bool;
  c_transformers : bool;
  c_pillow : bool;
  c_device : string;
  c_torch_version : string;
  c_transformers_version : string;
  c_pillow_version : string
}.

(** The JSON lines written by [send_response]. *)
Inductive Message :=
| Status (message : string)
| Progress (current total : nat)
| ClassifyResponse (device : string)
    (results : list ResultEntry) (errors : list ErrorEntry)
| CheckResponse (checks : Checks)
| ErrorResponse (error : string).

(** What the worker does to the outside, in order. *)
Inductive Event :=
| Out (m : Message)
| LoadModel (model_name device : string)
| TextFeatures (prompts : list string)
| ImageOpen (path : string)
| ImageFeatures (path : string).

Inductive Outcome (A : Type) :=
| Ret (a : A)
| Raise (e : string)        (* an exception, carried as [str(e)] *)
| SysExit (code : Z).
Arguments Ret {A} a.
Arguments Raise {A} e.
Arguments SysExit {A} code.

Definition M (A : Type) : Type := list Event * Outcome A.

Definition ret {A} (a : A) : M A := ([], Ret a).
Definition raise {A} (e : string) : M A := ([], Raise e).
Definition sys_exit {A} (code : Z) : M A := ([], SysExit code).
Definition emit (ev : Event) : M unit := ([ev], Ret tt).

Definition bind {A B} (m : M A) (k : A -> M B) : M B :=
  match m with
  | (t, Ret a) => let (t', o) := k a in (t ++ t', o)
  | (t, Raise e) => (t, Raise e)
  | (t, SysExit c) => (t, SysExit c)
  end.

(** [try: m except Exception as e: h(str(e))]; [SystemExit] is not an
    [Exception] and passes through. *)
Definition try_except {A} (m : M A) (h : string -> M A) : M A :=
  match m with
  | (t, Raise e) => let (t', o) := h e in (t ++ t', o)
  | other => other
  end.

(** A collaborator call: the call is traced, its exception is raised. *)
Definition call {A} (ev : Event) (r : string + A) : M A :=
  match r with
  | inl e => ([ev], Raise e)
  | inr a => ([ev], Ret a)
  end.

Definition trace {A} (m : M A) : list Event := fst m.
Definition outcome {A} (m : M A) : Outcome A := snd m.

(** The exit status of the process: an uncaught exception ends the
    interpreter with status 1. *)
Definition exit_code {A} (m : M A) : Z :=
  match outcome m with
  | Ret _ => 0
  | Raise _ => 1
  | SysExit c => c
  end.

Notation "x <- m ;; k" := (bind m (fun x => k))
  (at level 100, m at next level, right associativity).
Notation "m ;;; k" := (bind m (fun _ => k))
  (at level 100, right associativity).

(** ** The outside world *)

(** A loaded model with its processor: the two towers, each of which may
    raise. *)
Record Model := {
  get_text_features : list string -> string + list (list F);
  get_image_features : Image -> string + list F
}.

Record World := {
  mps_is_available : bool;
  cuda_is_available : bool;
  json_loads : string -> Parsed;
  from_pretrained : string -> string -> string + Model;
  image_open : string -> string + Image;
  torch_version : string;
  transformers_version : string;
  pil_version : string
}.

Variable w : World.

(** *** get_device *)
Definition get_device : string :=
  if mps_is_available w then "mps"
  else if cuda_is_available w then "cuda"
  else "cpu".

(** *** send_response, send_progress *)
Definition send_response (data : Message) : M unit := emit (Out data).

Definition send_progress (current total : nat) : M unit :=
  send_response (Progress current total).

(** *** load_model *)
Definition load_model (model_name device : string) : M Model :=
  call (LoadModel model_name device) (from_pretrained w model_name device).

(** *** Tensor operations *)

Definition fsum (v : list F) : F := fold_left fadd v fzero.

Definition dot (u v : list F) : F :=
  fsum (map (fun p => fmul (fst p) (snd p)) (combine u v)).

(** [v.norm(dim=-1)] *)
Definition norm (v : list F) : F := fsqrt (dot v v).

(** [v / v.norm(dim=-1, keepdim=True)], one row *)
Definition normalize (v : list F) : list F :=
  map (fun x => fdiv x (norm v)) v.

(** [t.mean()]; on an empty tensor the quotient is 0/0. *)
Definition mean (v : list F) : F := fdiv (fsum v) (fofnat (length v)).

(** [image_features @ text_features.T], for one image row.  The product
    raises when a row has another length than the image vector. *)
Definition similarities (image_features : list F)
  (text_features : list (list F)) : string + list F :=
  if forallb (fun row => Nat.eqb (length row) (length image_features))
       text_features
  then inr (map (dot image_features) text_features)
  else inl "mat1 and mat2 shapes cannot be multiplied".

(** [t[indices]]: an index past the end raises. *)
Fixpoint gather (t : list F) (indices : list nat) : string + list F :=
  match indices with
  | [] => inr []
  | i :: rest =>
      match nth_error t i, gather t rest with
      | Some x, inr xs => inr (x :: xs)
      | None, _ => inl "index out of range"
      | _, inl e => inl e
      end
  end.

Fixpoint insert_desc (x : F) (l : list F) : list F :=
  match l with
  | [] => [x]
  | y :: ys => if fgt x y then x :: l else y :: insert_desc x ys
  end.

Definition sort_desc (l : list F) : list F := fold_right insert_desc [] l.

(** [t.topk(k)]: the [k] largest values, largest first; a negative [k]
    raises, and so does a [k] beyond the length. *)
Definition topk (t : list F) (k : Z) : string + list F :=
  if (k <? 0)%Z then inl "k not in range for dimension"
  else if (Z.of_nat (length t) <? k)%Z then inl "k not in range for dimension"
  else inr (firstn (Z.to_nat k) (sort_desc t)).

(** A library result inside a [try] block: [inl e] is a raised exception. *)
Definition of_sum {A} (r : string + A) : M A :=
  match r with
  | inl e => raise e
  | inr a => ret a
  end.

(** *** precompute_text_features *)

(** Lines 47-53: the two lists grown by [append] in the nested loops over
    [categories.items()] and the prompts of each category. *)
Definition flatten_categories (categories : Dict.t (list string))
  : list string * list string :=
  fold_left
    (fun acc item =>
       fold_left
         (fun acc' prompt => (fst acc' ++ [prompt], snd acc' ++ [fst item]))
         (snd item) acc)
    categories ([], []).

(** Lines 68-70: [category_indices[cat].append(idx)] over
    [enumerate(prompt_to_category)]. *)
Definition group_indices (prompt_to_category : list string)
  : Dict.t (list nat) :=
  fold_left (fun d ic => Dict.append (snd ic) (fst ic) d)
    (enumerate prompt_to_category) [].

Definition precompute_text_features (model : Model)
  (categories : Dict.t (list string))
  : M (list (list F) * list string * Dict.t (list nat)) :=
  let all_prompts := fst (flatten_categories categories) in
  let prompt_to_category := snd (flatten_categories categories) in
  text_outputs <- call (TextFeatures all_prompts)
                    (get_text_features model all_prompts) ;;
  let text_features := map normalize text_outputs in
  let category_indices := group_indices prompt_to_category in
  ret (text_features, prompt_to_category, category_indices).

(** *** classify_image *)

(** Lines 98-103: the loop that fills [category_scores]. *)
Fixpoint score_categories (all_similarities : list F)
  (items : list (string * list nat)) (top_k : Z)
  (category_scores : Scores) : M Scores :=
  match items with
  | [] => ret category_scores
  | (category, indices) :: rest =>
      cat_similarities <- of_sum (gather all_similarities indices) ;;
      let k := Z.min top_k (Z.of_nat (length indices)) in
      top_scores <- of_sum (topk cat_similarities k) ;;
      score_categories all_similarities rest top_k
        (Dict.set category (mean top_scores) category_scores)
  end.

(** [max(category_scores, key=category_scores.get)]: the keys are visited in
    insertion order and the running maximum is replaced only by a key whose
    value is strictly greater. *)
Fixpoint max_item (best : string * F) (rest : list (string * F))
  : string * F :=
  match rest with
  | [] => best
  | item :: rest' =>
      if fgt (snd item) (snd best) then max_item item rest'
      else max_item best rest'
  end.

Definition py_max (category_scores : Scores) : string + (string * F) :=
  match category_scores with
  | [] => inl "max() arg is an empty sequence"
  | first :: rest => inr (max_item first rest)
  end.

(** The 4-tuple [(best_category, confidence, category_scores, error)]. *)
Definition Classified : Type :=
  option string * option F * option Scores * option string.

Definition classify_image (image_path : string) (model : Model)
  (text_features : list (list F)) (category_indices : Dict.t (list nat))
  (top_k : Z) : M Classified :=
  opened <- try_except
              (image <- call (ImageOpen image_path)
                          (image_open w image_path) ;;
               ret (inr image))
              (fun e => ret (inl e)) ;;
  match opened with
  | inl e => ret (None, None, None, Some e)
  | inr image =>
      try_except
        (image_outputs <- call (ImageFeatures image_path)
                            (get_image_features model image) ;;
         let image_features := normalize image_outputs in
         all_similarities <- of_sum
                               (similarities image_features text_features) ;;
         category_scores <- score_categories all_similarities
                              category_indices top_k [] ;;
         best <- of_sum (py_max category_scores) ;;
         let best_category := fst best in
         let confidence := snd best in
         ret (Some best_category, Some confidence, Some category_scores,
              None))
        (fun e => ret (None, None, None, Some e))
  end.

(** *** handle_classify *)

(** [if error:] on a value that is [None] or a string: the empty string is
    false like [None]. *)
Definition truthy (error : option string) : bool :=
  match error with
  | None => false
  | Some s => negb (String.eqb s EmptyString)
  end.

(** Lines 145-160, from position [idx] on. *)
Fixpoint classify_loop (model : Model) (text_features : list (list F))
  (category_indices : Dict.t (list nat)) (top_k : Z) (total idx : nat)
  (images : list string)
  (results : list ResultEntry) (errors : list ErrorEntry)
  : M (list ResultEntry * list ErrorEntry) :=
  match images with
  | [] => ret (results, errors)
  | image_path :: rest =>
      send_progress (idx + 1) total ;;;
      c <- classify_image image_path model text_features
             category_indices top_k ;;
      let '(category, confidence, scores, error) := c in
      if truthy error then
        classify_loop model text_features category_indices top_k total
          (S idx) rest results
          (errors ++ [{| e_path := image_path;
                         e_error := get_or error EmptyString |}])
      else
        classify_loop model text_features category_indices top_k total
          (S idx) rest
          (results ++ [{| r_path := image_path;
                          r_category := category;
                          r_confidence := confidence;
                          r_scores := scores |}])
          errors
  end.

Definition handle_classify (request : Request) : M unit :=
  let config := get_or (req_config request)
                  {| cfg_model := None; cfg_categories := None;
                     cfg_topK := None |} in
  let images := get_or (req_images request) [] in
  let model_name := get_or (cfg_model config)
                      "openai/clip-vit-large-patch14" in
  let categories := get_or (cfg_categories config) [] in
  let top_k := get_or (cfg_topK config) 3%Z in
  let device := get_device in
  send_response
    (Status ("Loading model on " ++ device ++ "...")%string) ;;;
  loaded <- try_except
              (model <- load_model model_name device ;; ret (Some model))
              (fun e =>
                 send_response
                   (ErrorResponse ("Failed to load model: " ++ e)%string) ;;;
                 ret None) ;;
  match loaded with
  | None => ret tt
  | Some model =>
      send_response (Status "Precomputing text features...") ;;;
      index <- precompute_text_features model categories ;;
      let '(text_features, _, category_indices) := index in
      let total := length images in
      lists <- classify_loop model text_features category_indices top_k
                 total 0 images [] [] ;;
      send_response (ClassifyResponse device (fst lists) (snd lists))
  end.

(** *** handle_check *)
Definition handle_check : M unit :=
  let device := get_device in
  send_response
    (CheckResponse
       {| c_torch := true; c_transformers := true; c_pillow := true;
          c_device := device;
          c_torch_version := torch_version w;
          c_transformers_version := transformers_version w;
          c_pillow_version := pil_version w |}).

(** *** main *)
Definition main (input_data : string) : M unit :=
  match json_loads w input_data with
  | JSONDecodeError msg =>
      send_response
        (ErrorResponse ("Invalid JSON input: " ++ msg)%string) ;;;
      sys_exit 1%Z
  | NotAnObject type_name =>
      raise ("'" ++ type_name ++ "' object has no attribute 'get'")%string
  | Document request =>
      let command := get_or (req_command request) (CmdStr "classify") in
      if command_is command "classify" then handle_classify request
      else if command_is command "check" then handle_check
      else
        send_response
          (ErrorResponse
             ("Unknown command: " ++ command_str command)%string) ;;;
        sys_exit 1%Z
  end.

End Worker.

Arguments Ret {A} a.
Arguments Raise {A} e.
Arguments SysExit {A} code.

(** ** Specification-side vocabulary *)

(** The rows of the index that a mapping gives to each category: the
    categories in declaration order, each with the consecutive row numbers of
    its prompts; a category without prompts has no entry. *)
Fixpoint index_ranges (offset : nat) (categories : Dict.t (list string))
  : Dict.t (list nat) :=
  match categories with
  | [] => []
  | (category, prompts) :: rest =>
      match prompts with
      | [] => index_ranges offset rest
      | _ :: _ =>
          (category, seq offset (length prompts))
            :: index_ranges (offset + length prompts) rest
      end
  end.

(** The rows [offset, offset + n) of a tensor. *)
Definition rows {A} (offset n : nat) (t : list A) : list A :=
  firstn n (skipn offset t).

(** The mapping without its categories that have no prompt. *)
Definition prompted (categories : Dict.t (list string))
  : Dict.t (list string) :=
  filter (fun item => match snd item with [] => false | _ :: _ => true end)
    categories.

(** The request with its categories mapping replaced. *)
Definition with_categories (request : Request)
  (categories : Dict.t (list string)) : Request :=
  let config := get_or (req_config request)
                  {| cfg_model := None; cfg_categories := None;
                     cfg_topK := None |} in
  {| req_command := req_command request;
     req_config := Some {| cfg_model := cfg_model config;
                           cfg_categories := Some categories;
                           cfg_topK := cfg_topK config |};
     req_images := req_images request |}.

(** The grouping loop started at row [offset] with the dictionary [d]. *)
Definition group_from (offset : nat) (labels : list string)
  (d : Dict.t (list nat)) : Dict.t (list nat) :=
  fold_left (fun d ic => Dict.append (snd ic) (fst ic) d)
    (combine (seq offset (length labels)) labels) d.

Section Vocabulary.

Context {F : Type} {AF : Arith F}.

(** What the comparison [>] always satisfies on the values of [l]:
    nothing exceeds itself, and exceeding is transitive. *)
Definition gt_strict_on (l : list F) : Prop :=
  (forall x, In x l -> fgt x x = false) /\
  (forall x y z, In x l -> In y l -> In z l ->
     fgt x y = true -> fgt y z = true -> fgt x z = true).

(** Numerical equality agrees with the comparison on the values of [l]. *)
Definition eq_respects_gt_on (l : list F) : Prop :=
  forall x y z, In x l -> In y l -> In z l ->
    feq x y = true -> fgt y z = true -> fgt x z = true.


(** The [(current, total)] pairs of the progress messages of a trace. *)
Fixpoint progress_messages (t : list (Event (F:=F))) : list (nat * nat) :=
  match t with
  | [] => []
  | Out (Progress current total) :: t' =>
      (current, total) :: progress_messages t'
  | _ :: t' => progress_messages t'
  end.

(** The messages written to the output channel. *)
Fixpoint output (t : list (Event (F:=F))) : list (Message (F:=F)) :=
  match t with
  | [] => []
  | Out m :: t' => m :: output t'
  | _ :: t' => output t'
  end.

(** The collaborator calls of a trace (model loading, the two towers, image
    decoding). *)
Definition is_call (ev : Event (F:=F)) : bool :=
  match ev with
  | Out _ => false
  | _ => true
  end.

(** The score the scoring loop gives to a category whose rows are
    [indices]. *)
Definition category_score (sims : list F) (top_k : Z) (indices : list nat)
  : F :=
  mean (firstn (Z.to_nat (Z.min top_k (Z.of_nat (length indices))))
          (sort_desc (map (fun i => nth i sims fzero) indices))).

(** [y] does not come before [x] in descending order. *)
Definition not_below (x y : F) : Prop := fgt y x = false.

End Vocabulary.

Section Outcomes.

Context {F : Type} {AF : Arith F} {Image : Type}.
Variable w : World (F:=F) (Image:=Image).

(** The tuple a run of [classify_image] returns. *)
Definition returned (m : M (F:=F) (Classified (F:=F))) : Classified :=
  match outcome m with
  | Ret r => r
  | _ => (None, None, None, None)
  end.

(** The record [handle_classify] appends to [results]. *)
Definition result_entry (image_path : string) (c : Classified (F:=F))
  : ResultEntry :=
  let '(category, confidence, scores, _) := c in
  {| r_path := image_path; r_category := category;
     r_confidence := confidence; r_scores := scores |}.

(** The record [handle_classify] appends to [errors]. *)
Definition error_entry (image_path : string) (c : Classified (F:=F))
  : ErrorEntry :=
  {| e_path := image_path; e_error := get_or (snd c) EmptyString |}.

(** An image is successfully classified when [classify_image] returns no
    error for it. *)
Definition succeeded (c : Classified (F:=F)) : bool :=
  match snd c with
  | None => true
  | Some _ => false
  end.

(** The events of one turn of the loop of [handle_classify]. *)
Definition turn (model : Model) (text_features : list (list F))
  (category_indices : Dict.t (list nat)) (top_k : Z) (total : nat)
  (ip : nat * string) : list Event :=
  Out (Progress (fst ip + 1) total)
    :: trace (classify_image w (snd ip) model text_features
                category_indices top_k).

(** The settings [handle_classify] reads from a request. *)
Definition config_of (request : Request) : Config :=
  get_or (req_config request)
    {| cfg_model := None; cfg_categories := None; cfg_topK := None |}.

Definition images_of (request : Request) : list string :=
  get_or (req_images request) [].

Definition model_name_of (request : Request) : string :=
  get_or (cfg_model (config_of request)) "openai/clip-vit-large-patch14".

Definition categories_of (request : Request) : Dict.t (list string) :=
  get_or (cfg_categories (config_of request)) [].

Definition top_k_of (request : Request) : Z :=
  get_or (cfg_topK (config_of request)) 3%Z.

(** The inputs [main] rejects, with the text of the error response: input
    that is not JSON, and a request whose command is neither [classify] nor
    [check]. *)
Inductive Rejected (input_data : string) : string -> Prop :=
| RejectedMalformed (msg : string) :
    json_loads w input_data = JSONDecodeError msg ->
    Rejected input_data ("Invalid JSON input: " ++ msg)%string
| RejectedUnknown (request : Request) (command : Command) :
    json_loads w input_data = Document request ->
    req_command request = Some command ->
    command <> CmdStr "classify" ->
    command <> CmdStr "check" ->
    Rejected input_data ("Unknown command: " ++ command_str command)%string.

End Outcomes.

(** ** Vocabulary of the coverage theorems *)

(** The rows of [labels], counted from [offset], that carry the label
    [c]. *)
Fixpoint positions (c : string) (offset : nat) (labels : list string)
  : list nat :=
  match labels with
  | [] => []
  | x :: xs =>
      if String.eqb x c then offset :: positions c (S offset) xs
      else positions c (S offset) xs
  end.

Section Calls.

Context {F : Type} {AF : Arith F} {Image : Type}.
Variable w : World (F:=F) (Image:=Image).

(** The paths handed to the image decoder, in the order of the calls. *)
Fixpoint opened (t : list (Event (F:=F))) : list string :=
  match t with
  | [] => []
  | ImageOpen path :: t' => path :: opened t'
  | _ :: t' => opened t'
  end.

(** The paths of the images handed to the image tower. *)
Fixpoint embedded (t : list (Event (F:=F))) : list string :=
  match t with
  | [] => []
  | ImageFeatures path :: t' => path :: embedded t'
  | _ :: t' => embedded t'
  end.

(** The model loads of a trace, each with its model name and device. *)
Fixpoint model_loads (t : list (Event (F:=F))) : list (string * string) :=
  match t with
  | [] => []
  | LoadModel model_name device :: t' =>
      (model_name, device) :: model_loads t'
  | _ :: t' => model_loads t'
  end.

(** The prompt lists handed to the text tower. *)
Fixpoint text_calls (t : list (Event (F:=F))) : list (list string) :=
  match t with
  | [] => []
  | TextFeatures prompts :: t' => prompts :: text_calls t'
  | _ :: t' => text_calls t'
  end.

(** The decoder accepts the image at [path]. *)
Definition decodes (path : string) : bool :=
  match image_open w path with
  | inr _ => true
  | inl _ => false
  end.

(** The command of a request is [classify], spelled out or by default. *)
Definition asks_classify (request : Request) : Prop :=
  req_command request = None \/
  req_command request = Some (CmdStr "classify").

End Calls.

(** ** A concrete world on binary64 numbers

    Two-dimensional embeddings chosen so that every quotient and product
    below is exact; the images are named by what the image tower makes of
    them. *)

Module Example.

Definition dquote : string :=
  String (Ascii.Ascii false true false false false true false false)
    EmptyString.

(** The text tower of the stub model. *)
Definition text_vector (prompt : string) : list float :=
  if String.eqb prompt "a photo of a cat" then [1; 0]%float
  else if String.eqb prompt "a photo of a dog" then [0; 1]%float
  else if String.eqb prompt "a sleeping kitten" then [3; 4]%float
  else if String.eqb prompt "a blank page" then [0; 0]%float
  else [4; 3]%float.

Inductive Picture := CatLike | DogLike | Diagonal | Black | Garbled.

Definition image_vector (image : Picture) : string + list float :=
  match image with
  | CatLike => inr [2; 0]%float
  | DogLike => inr [0; 5]%float
  | Diagonal => inr [1; 1]%float
  | Black => inr [0; 0]%float
  | Garbled => inl "CUDA error: out of memory"
  end.

Definition clip : Model := {|
  get_text_features := fun prompts => inr (map text_vector prompts);
  get_image_features := image_vector
|}.

(** A model whose text tower raises. *)
Definition broken : Model := {|
  get_text_features := fun _ => inl "CUDA error: out of memory";
  get_image_features := image_vector
|}.

(** [huge.png] is an image the decoder gives up on with a [MemoryError],
    whose [str()] is the empty string. *)
Definition decode (path : string) : string + Picture :=
  if String.eqb path "cat.png" then inr CatLike
  else if String.eqb path "dog.png" then inr DogLike
  else if String.eqb path "diagonal.png" then inr Diagonal
  else if String.eqb path "black.png" then inr Black
  else if String.eqb path "garbled.png" then inr Garbled
  else if String.eqb path "huge.png" then inl EmptyString
  else inl ("No such file or directory: " ++ path)%string.

Definition cat_dog : Dict.t (list string) :=
  [("cat", ["a photo of a cat"]); ("dog", ["a photo of a dog"])].

Definition cat_kitten_dog : Dict.t (list string) :=
  [("cat", ["a photo of a cat"; "a sleeping kitten"]);
   ("dog", ["a photo of a dog"])].

Definition with_empty : Dict.t (list string) :=
  [("cat", ["a photo of a cat"]); ("unicorn", []);
   ("dog", ["a photo of a dog"])].

Definition with_blank : Dict.t (list string) :=
  [("blank", ["a blank page"]); ("dog", ["a photo of a dog"])].

Definition classify_request (model_name : option string)
  (categories : Dict.t (list string)) (top_k : Z) (images : list string)
  : Request :=
  {| req_command := Some (CmdStr "classify");
     req_config := Some {| cfg_model := model_name;
                           cfg_categories := Some categories;
                           cfg_topK := Some top_k |};
     req_images := Some images |}.

(** Three input documents: one that is not JSON, an object with an unknown
    command, and an object without a [command] key. *)
Definition input_truncated : string := "{".

Definition input_resize : string :=
  ("{" ++ dquote ++ "command" ++ dquote ++ ": "
       ++ dquote ++ "resize" ++ dquote ++ "}")%string.

Definition input_no_command : string :=
  ("{" ++ dquote ++ "images" ++ dquote ++ ": ["
       ++ dquote ++ "cat.png" ++ dquote ++ "]}")%string.

Definition loads (input_data : string) : Parsed :=
  if String.eqb input_data input_resize then
    Document {| req_command := Some (CmdStr "resize");
                req_config := None; req_images := None |}
  else if String.eqb input_data input_no_command then
    Document {| req_command := None; req_config := None;
                req_images := Some ["cat.png"] |}
  else
    JSONDecodeError
      "Expecting property name enclosed in double quotes: line 1 column 2 (char 1)".

Definition pretrained (model_name device : string) : string + Model :=
  if String.eqb model_name "broken/text-tower" then inr broken
  else if String.eqb model_name "nobody/nothing" then
    inl "nobody/nothing is not a valid model identifier"
  else inr clip.

Definition world : World := {|
  mps_is_available := false;
  cuda_is_available := false;
  json_loads := loads;
  from_pretrained := pretrained;
  image_open := decode;
  torch_version := "2.3.0";
  transformers_version := "4.41.0";
  pil_version := "10.3.0"
|}.

(** What the text tower returns for two of the category mappings. *)
Definition cat_kitten_dog_outputs : list (list float) :=
  map text_vector (fst (flatten_categories cat_kitten_dog)).

Definition cat_dog_outputs : list (list float) :=
  map text_vector (fst (flatten_categories cat_dog)).

End Example.

(** A second world, for the documents the first one does not decode: an
    array, a [check] request and a classify request for a model that does not
    exist.  Everything else is as in [Example.world]. *)

Module Sample.

Import Example.

Definition input_array : string := "[]".

Definition input_check : string :=
  ("{" ++ dquote ++ "command" ++ dquote ++ ": "
       ++ dquote ++ "check" ++ dquote ++ "}")%string.

Definition input_unknown_model : string :=
  ("{" ++ dquote ++ "config" ++ dquote ++ ": {"
       ++ dquote ++ "model" ++ dquote ++ ": "
       ++ dquote ++ "nobody/nothing" ++ dquote ++ "}, "
       ++ dquote ++ "images" ++ dquote ++ ": ["
       ++ dquote ++ "cat.png" ++ dquote ++ "]}")%string.

Definition unknown_model_request : Request :=
  {| req_command := None;
     req_config := Some {| cfg_model := Some "nobody/nothing";
                           cfg_categories := None; cfg_topK := None |};
     req_images := Some ["cat.png"] |}.

Definition check_request : Request :=
  {| req_command := Some (CmdStr "check"); req_config := None;
     req_images := None |}.

Definition input_empty_object : string := "{}".

Definition empty_request : Request :=
  {| req_command := None; req_config := None; req_images := None |}.

Definition loads (input_data : string) : Parsed :=
  if String.eqb input_data input_array then NotAnObject "list"
  else if String.eqb input_data input_empty_object then
    Document empty_request
  else if String.eqb input_data input_check then Document check_request
  else if String.eqb input_data input_unknown_model then
    Document unknown_model_request
  else Example.loads input_data.

Definition world : World := {|
  mps_is_available := false;
  cuda_is_available := true;
  json_loads := loads;
  from_pretrained := pretrained;
  image_open := decode;
  torch_version := "2.3.0";
  transformers_version := "4.41.0";
  pil_version := "10.3.0"
|}.

(** A grouping in which [cat] has two rows and [dog] one. *)
Definition two_one : Dict.t (list nat) := [("cat", [0; 1]); ("dog", [2])].

End Sample.

(** * Properties *)

(** ** Dictionaries *)

Module DictFacts.

Lemma get_none_notin {V} (k : string) (d : Dict.t V) :
  Dict.get k d = None <-> ~ In k (Dict.keys d).
Proof.
  induction d as [|[k' v] d IH]; simpl.
  - tauto.
  - destruct (String.eqb_spec k k') as [->|Hne].
    + split; [discriminate | intros H; exfalso; apply H; now left].
    + rewrite IH. split.
      * intros H [Heq|Hin]; [congruence | tauto].
      * intros H Hin. apply H. now right.
Qed.


Lemma in_get {V} (k : string) (v : V) (d : Dict.t V) :
  NoDup (Dict.keys d) -> In (k, v) d -> Dict.get k d = Some v.
Proof.
  induction d as [|[k' v'] d IH]; simpl; [tauto|].
  intros Hnd [Heq|Hin].
  - injection Heq as -> ->. now rewrite String.eqb_refl.
  - inversion Hnd as [|? ? Hnotin Hnd']; subst.
    destruct (String.eqb_spec k k') as [->|Hne].
    + exfalso. apply Hnotin. change k' with (fst (k', v)).
      now apply in_map.
    + auto.
Qed.

Lemma set_fresh {V} (k : string) (v : V) (d : Dict.t V) :
  ~ In k (Dict.keys d) -> Dict.set k v d = d ++ [(k, v)].
Proof.
  induction d as [|[k' v'] d IH]; simpl; [reflexivity|].
  intros H. destruct (String.eqb_spec k k') as [->|Hne].
  - exfalso. apply H. now left.
  - rewrite IH; [reflexivity|]. intros Hin. apply H. now right.
Qed.

Lemma set_last {V} (k : string) (v v' : V) (d : Dict.t V) :
  ~ In k (Dict.keys d) -> Dict.set k v' (d ++ [(k, v)]) = d ++ [(k, v')].
Proof.
  induction d as [|[k0 v0] d IH]; simpl.
  - now rewrite String.eqb_refl.
  - intros H. destruct (String.eqb_spec k k0) as [->|Hne].
    + exfalso. apply H. now left.
    + rewrite IH; [reflexivity|]. intros Hin. apply H. now right.
Qed.

Lemma get_last {V} (k : string) (v : V) (d : Dict.t V) :
  ~ In k (Dict.keys d) -> Dict.get k (d ++ [(k, v)]) = Some v.
Proof.
  induction d as [|[k0 v0] d IH]; simpl.
  - now rewrite String.eqb_refl.
  - intros H. destruct (String.eqb_spec k k0) as [->|Hne].
    + exfalso. apply H. now left.
    + apply IH. intros Hin. apply H. now right.
Qed.

Lemma keys_app {V} (d1 d2 : Dict.t V) :
  Dict.keys (d1 ++ d2) = Dict.keys d1 ++ Dict.keys d2.
Proof. unfold Dict.keys. apply map_app. Qed.

End DictFacts.

(** ** The flattening and the grouping of [precompute_text_features] *)

Section Index.

Lemma flatten_prompts_from (prompts : list string) (category : string)
  (acc : list string * list string) :
  fold_left
    (fun acc' prompt => (fst acc' ++ [prompt], snd acc' ++ [category]))
    prompts acc
  = (fst acc ++ prompts, snd acc ++ repeat category (length prompts)).
Proof.
  revert acc. induction prompts as [|p ps IH]; intros [a b]; simpl.
  - now rewrite !app_nil_r.
  - rewrite IH. simpl. now rewrite <- !app_assoc.
Qed.

Lemma flatten_categories_from (categories : Dict.t (list string))
  (acc : list string * list string) :
  fold_left
    (fun acc item =>
       fold_left
         (fun acc' prompt => (fst acc' ++ [prompt], snd acc' ++ [fst item]))
         (snd item) acc)
    categories acc
  = (fst acc ++ flat_map snd categories,
     snd acc ++ flat_map (fun item => repeat (fst item) (length (snd item)))
                  categories).
Proof.
  revert acc. induction categories as [|[c ps] cs IH]; intros [a b]; simpl.
  - now rewrite !app_nil_r.
  - rewrite flatten_prompts_from, IH. simpl. now rewrite <- !app_assoc.
Qed.

(** The flattened prompt list is the concatenation of the prompt lists, and
    each row is labelled with the category it comes from. *)
Lemma flatten_categories_spec (categories : Dict.t (list string)) :
  flatten_categories categories
  = (flat_map snd categories,
     flat_map (fun item => repeat (fst item) (length (snd item))) categories).
Proof. unfold flatten_categories. now rewrite flatten_categories_from. Qed.

Lemma group_from_app (l1 l2 : list string) (offset : nat)
  (d : Dict.t (list nat)) :
  group_from offset (l1 ++ l2) d
  = group_from (offset + length l1) l2 (group_from offset l1 d).
Proof.
  unfold group_from. revert offset d.
  induction l1 as [|x l1 IH]; intros offset d; simpl.
  - now rewrite Nat.add_0_r.
  - rewrite IH. now rewrite Nat.add_succ_r.
Qed.

Lemma group_from_repeat_more (c : string) (n offset : nat) (l : list nat)
  (d : Dict.t (list nat)) :
  ~ In c (Dict.keys d) ->
  group_from offset (repeat c n) (d ++ [(c, l)])
  = d ++ [(c, l ++ seq offset n)].
Proof.
  unfold group_from. revert offset l.
  induction n as [|n IH]; intros offset l Hc; simpl.
  - now rewrite app_nil_r.
  - unfold Dict.append at 2. simpl.
    rewrite DictFacts.get_last by assumption.
    rewrite DictFacts.set_last by assumption.
    rewrite IH by assumption. now rewrite <- app_assoc.
Qed.

Lemma group_from_repeat (c : string) (n offset : nat)
  (d : Dict.t (list nat)) :
  ~ In c (Dict.keys d) ->
  group_from offset (repeat c (S n)) d = d ++ [(c, seq offset (S n))].
Proof.
  intros Hc. unfold group_from. simpl.
  unfold Dict.append at 2. simpl.
  destruct (DictFacts.get_none_notin c d) as [_ Hnone].
  rewrite (Hnone Hc), DictFacts.set_fresh by assumption.
  apply (group_from_repeat_more c n (S offset) [offset] d Hc).
Qed.

Lemma keys_index_ranges (categories : Dict.t (list string)) (offset : nat) :
  Dict.keys (index_ranges offset categories) = Dict.keys (prompted categories).
Proof.
  revert offset. induction categories as [|[c [|p ps]] cs IH];
    intros offset; simpl; auto.
  now rewrite IH.
Qed.

Lemma keys_prompted_incl (categories : Dict.t (list string)) (c : string) :
  In c (Dict.keys (prompted categories)) -> In c (Dict.keys categories).
Proof.
  unfold Dict.keys, prompted. rewrite !in_map_iff.
  intros [x [Hx Hin]]. apply filter_In in Hin. exists x. tauto.
Qed.

Lemma group_from_categories (categories : Dict.t (list string))
  (offset : nat) (d : Dict.t (list nat)) :
  NoDup (Dict.keys d ++ Dict.keys categories) ->
  group_from offset
    (flat_map (fun item => repeat (fst item) (length (snd item))) categories)
    d
  = d ++ index_ranges offset categories.
Proof.
  revert offset d. induction categories as [|[c ps] cs IH];
    intros offset d Hnd; cbn [flat_map fst snd].
  - unfold group_from. simpl. now rewrite app_nil_r.
  - rewrite group_from_app, repeat_length.
    assert (Hc : ~ In c (Dict.keys d)).
    { intros Hin. apply NoDup_remove_2 in Hnd. apply Hnd.
      apply in_or_app. now left. }
    destruct ps as [|p ps]; cbn [index_ranges length].
    + unfold group_from at 2. simpl. rewrite Nat.add_0_r.
      apply IH. now apply NoDup_remove_1 in Hnd.
    + rewrite group_from_repeat by assumption.
      rewrite IH.
      * now rewrite <- app_assoc.
      * rewrite DictFacts.keys_app. simpl. rewrite <- app_assoc. simpl.
        apply NoDup_remove_1 in Hnd as Hnd1.
        apply NoDup_remove_2 in Hnd as Hnd2.
        clear - Hnd1 Hnd2.
        induction (Dict.keys d) as [|k ks IHk]; simpl in *.
        -- constructor; assumption.
        -- inversion Hnd1; subst. constructor.
           ++ intros Hin. apply in_app_or in Hin as [Hin|[<-|Hin]].
              ** apply H1. apply in_or_app. now left.
              ** apply Hnd2. now left.
              ** apply H1. apply in_or_app. now right.
           ++ apply IHk; auto.
Qed.

(** The grouping built by the code is the table of consecutive row ranges,
    in declaration order. *)
Lemma group_indices_ranges (categories : Dict.t (list string)) :
  NoDup (Dict.keys categories) ->
  group_indices (snd (flatten_categories categories))
  = index_ranges 0 categories.
Proof.
  intros Hnd. rewrite flatten_categories_spec. simpl.
  apply (group_from_categories categories 0 []). exact Hnd.
Qed.

End Index.

(** ** Tensor operations *)

Section Tensors.

Context {F : Type} {AF : Arith F}.

Lemma normalize_length (v : list F) : length (normalize v) = length v.
Proof. unfold normalize. apply length_map. Qed.

Lemma normalize_nth (v : list F) (i : nat) (x : F) :
  nth_error v i = Some x ->
  nth_error (normalize v) i = Some (fdiv x (norm v)).
Proof. intros H. unfold normalize. now rewrite nth_error_map, H. Qed.

Lemma similarities_length (u : list F) (t : list (list F)) (sims : list F) :
  similarities u t = inr sims -> length sims = length t.
Proof.
  unfold similarities. destruct (forallb _ t); [|discriminate].
  intros [= <-]. apply length_map.
Qed.

Lemma gather_in_range (t : list F) (indices : list nat) :
  (forall i, In i indices -> i < length t) ->
  gather t indices = inr (map (fun i => nth i t fzero) indices).
Proof.
  induction indices as [|i rest IH]; intros Hr; simpl; [reflexivity|].
  rewrite IH by (intros j Hj; apply Hr; now right).
  destruct (nth_error t i) as [x|] eqn:Hx.
  - now rewrite (nth_error_nth _ _ fzero Hx).
  - apply nth_error_None in Hx. specialize (Hr i (or_introl eq_refl)). lia.
Qed.

Lemma gather_range_rows (t : list F) (offset n : nat) :
  offset + n <= length t ->
  gather t (seq offset n) = inr (rows offset n t).
Proof.
  intros Hle. rewrite gather_in_range.
  - f_equal. unfold rows. revert offset t Hle.
    induction n as [|n IH]; intros offset t Hle; simpl.
    + reflexivity.
    + destruct (skipn offset t) as [|x xs] eqn:Hs.
      * assert (length (skipn offset t) = 0) by now rewrite Hs.
        rewrite length_skipn in H. lia.
      * f_equal.
        -- rewrite <- (firstn_skipn offset t) at 1.
           rewrite app_nth2; rewrite length_firstn; [|lia].
           replace (offset - Nat.min offset (length t)) with 0 by lia.
           now rewrite Hs.
        -- rewrite IH by lia. f_equal.
           replace (S offset) with (1 + offset) by lia.
           rewrite <- skipn_skipn, Hs. reflexivity.
  - intros i Hi. apply in_seq in Hi. lia.
Qed.

Lemma insert_desc_perm (x : F) (l : list F) :
  Permutation (insert_desc x l) (x :: l).
Proof.
  induction l as [|y ys IH]; simpl; [reflexivity|].
  destruct (fgt x y); [reflexivity|].
  rewrite IH. apply perm_swap.
Qed.

Lemma sort_desc_perm (l : list F) : Permutation (sort_desc l) l.
Proof.
  induction l as [|x xs IH]; simpl; [reflexivity|].
  rewrite insert_desc_perm. now constructor.
Qed.

Lemma sort_desc_length (l : list F) : length (sort_desc l) = length l.
Proof. apply Permutation_length, sort_desc_perm. Qed.

Lemma insert_desc_sorted (x : F) (l : list F) :
  gt_strict_on (x :: l) ->
  StronglySorted not_below l -> StronglySorted not_below (insert_desc x l).
Proof.
  intros [Hirr Htr]. induction 1 as [|y ys Hs IH Hall]; simpl.
  - repeat constructor.
  - destruct (fgt x y) eqn:Hxy.
    + constructor; [now constructor|].
      assert (Hy : not_below x y).
      { unfold not_below. destruct (fgt y x) eqn:Hyx; [|reflexivity].
        rewrite <- (Hirr x (or_introl eq_refl)).
        symmetry. apply (Htr x y x); simpl; auto. }
      constructor; [exact Hy|].
      rewrite Forall_forall in *. intros z Hz.
      unfold not_below. destruct (fgt z x) eqn:Hzx; [|reflexivity].
      rewrite <- (Hall z Hz). symmetry.
      apply (Htr z x y); simpl; auto.
    + constructor.
      * apply IH. intros z Hz. apply Hirr. simpl in *. tauto.
        intros a b c Ha Hb Hc. apply Htr; simpl in *; tauto.
      * rewrite Forall_forall in *. intros z Hz.
        apply (Permutation_in _ (insert_desc_perm x ys)) in Hz.
        destruct Hz as [<-|Hz]; [exact Hxy | now apply Hall].
Qed.

Lemma gt_strict_on_incl (l l' : list F) :
  incl l' l -> gt_strict_on l -> gt_strict_on l'.
Proof.
  intros Hi [Hirr Htr]. split.
  - intros x Hx. apply Hirr. now apply Hi.
  - intros x y z Hx Hy Hz. apply Htr; now apply Hi.
Qed.

Lemma sort_desc_sorted (l : list F) :
  gt_strict_on l -> StronglySorted not_below (sort_desc l).
Proof.
  induction l as [|x xs IH]; intros Hl; simpl; [constructor|].
  apply insert_desc_sorted.
  - apply (gt_strict_on_incl (l:=x :: xs)); [|exact Hl].
    intros z [<-|Hz]; [now left|right].
    apply (Permutation_in _ (sort_desc_perm xs)). exact Hz.
  - apply IH. apply (gt_strict_on_incl (l:=x :: xs)); [|exact Hl].
    intros z Hz. now right.
Qed.

Lemma sorted_firstn_skipn (l : list F) (k : nat) :
  StronglySorted not_below l ->
  forall x y, In x (firstn k l) -> In y (skipn k l) -> fgt y x = false.
Proof.
  intros Hs. revert k. induction Hs as [|a l Hs IH Hall]; intros k x y.
  - destruct k; simpl; tauto.
  - destruct k as [|k]; simpl; [tauto|].
    intros [<-|Hx] Hy.
    + rewrite Forall_forall in Hall. apply Hall.
      rewrite <- (firstn_skipn k l). apply in_or_app. now right.
    + now apply (IH k).
Qed.

(** What [topk] selects: [k] values of the tensor, none of them exceeded by
    a value left out. *)
Lemma topk_highest (t : list F) (k : nat) :
  k <= length t ->
  topk t (Z.of_nat k) = inr (firstn k (sort_desc t)) /\
  length (firstn k (sort_desc t)) = k /\
  Permutation t (firstn k (sort_desc t) ++ skipn k (sort_desc t)) /\
  (gt_strict_on t ->
   forall x y, In x (firstn k (sort_desc t)) ->
     In y (skipn k (sort_desc t)) -> fgt y x = false).
Proof.
  intros Hk. repeat split.
  - unfold topk.
    destruct (Z.ltb_spec (Z.of_nat k) 0); [lia|].
    destruct (Z.ltb_spec (Z.of_nat (length t)) (Z.of_nat k)); [lia|].
    now rewrite Nat2Z.id.
  - rewrite length_firstn, sort_desc_length. lia.
  - rewrite firstn_skipn. symmetry. apply sort_desc_perm.
  - intros Hl. apply sorted_firstn_skipn. now apply sort_desc_sorted.
Qed.

End Tensors.

(** ** Scoring one image *)

Section Scoring.

Context {F : Type} {AF : Arith F} {Image : Type}.
Variable w : World (F:=F) (Image:=Image).

Lemma bind_ret {A B} (a : A) (k : A -> M (F:=F) B) : bind (ret a) k = k a.
Proof. unfold bind, ret. now destruct (k a). Qed.

Lemma bind_inr {A B} (a : A) (k : A -> M (F:=F) B) :
  bind (of_sum (inr a)) k = k a.
Proof. apply bind_ret. Qed.

Lemma bind_inl {A B} (e : string) (k : A -> M (F:=F) B) :
  bind (of_sum (inl e)) k = raise e.
Proof. reflexivity. Qed.

Lemma score_categories_silent (sims : list F)
  (items : list (string * list nat)) (top_k : Z) (acc : Scores) :
  trace (score_categories sims items top_k acc) = [].
Proof.
  revert acc. induction items as [|[c idxs] items IH]; intros acc; simpl.
  - reflexivity.
  - destruct (gather sims idxs) as [e|g]; [reflexivity|]. rewrite bind_inr.
    destruct (topk g _) as [e|top]; [reflexivity|]. rewrite bind_inr.
    apply IH.
Qed.

Lemma score_categories_no_exit (sims : list F)
  (items : list (string * list nat)) (top_k : Z) (acc : Scores) (c : Z) :
  outcome (score_categories sims items top_k acc) <> SysExit c.
Proof.
  revert acc. induction items as [|[cat idxs] items IH]; intros acc; simpl.
  - discriminate.
  - destruct (gather sims idxs) as [e|g]; [discriminate|]. rewrite bind_inr.
    destruct (topk g _) as [e|top]; [discriminate|]. rewrite bind_inr.
    apply IH.
Qed.

Lemma score_categories_ok (sims : list F) (items : list (string * list nat))
  (top_k : Z) (acc : Scores) :
  (forall c idxs i, In (c, idxs) items -> In i idxs -> i < length sims) ->
  (0 <= top_k)%Z ->
  NoDup (Dict.keys acc ++ Dict.keys items) ->
  score_categories sims items top_k acc
  = ret (acc ++ map (fun item =>
                       (fst item, category_score sims top_k (snd item)))
                  items).
Proof.
  revert acc. induction items as [|[c idxs] items IH];
    intros acc Hr Hk Hnd; simpl.
  - now rewrite app_nil_r.
  - rewrite gather_in_range by (intros i Hi; apply (Hr c idxs); simpl; auto).
    rewrite bind_inr.
    set (k := Z.min top_k (Z.of_nat (length idxs))).
    set (g := map (fun i => nth i sims fzero) idxs).
    assert (Hklen : Z.to_nat k <= length g).
    { unfold g. rewrite length_map. lia. }
    destruct (topk_highest g Hklen) as [Htop _].
    rewrite Z2Nat.id in Htop by lia. rewrite Htop, bind_inr.
    rewrite DictFacts.set_fresh.
    + rewrite IH.
      * rewrite <- app_assoc. reflexivity.
      * intros c' idxs' i Hin. apply (Hr c' idxs'). now right.
      * exact Hk.
      * rewrite DictFacts.keys_app, <- app_assoc. exact Hnd.
    + apply NoDup_remove_2 in Hnd. intros Hin. apply Hnd.
      apply in_or_app. now left.
Qed.

(** [classify_image] never raises, and its trace is the decode call,
    followed by the embedding call when the image could be decoded. *)
Lemma classify_image_total (image_path : string) (model : Model)
  (text_features : list (list F)) (category_indices : Dict.t (list nat))
  (top_k : Z) :
  exists r,
    outcome (classify_image w image_path model text_features
               category_indices top_k) = Ret r /\
    (trace (classify_image w image_path model text_features
              category_indices top_k) = [ImageOpen image_path] \/
     trace (classify_image w image_path model text_features
              category_indices top_k)
     = [ImageOpen image_path; ImageFeatures image_path]).
Proof.
  unfold classify_image.
  destruct (image_open w image_path) as [e|image]; simpl.
  - eexists. split; [reflexivity|now left].
  - destruct (get_image_features model image) as [e|v]; simpl.
    + eexists. split; [reflexivity|now right].
    + destruct (similarities (normalize v) text_features) as [e|sims]; simpl.
      * eexists. split; [reflexivity|now right].
      * pose proof (score_categories_silent sims category_indices top_k [])
          as Hsil.
        destruct (score_categories sims category_indices top_k [])
          as [t [scores|e|c]] eqn:Hsc; simpl in Hsil; subst t; simpl.
        -- destruct (py_max scores) as [e|best]; simpl;
             eexists; (split; [reflexivity|now right]).
        -- eexists. split; [reflexivity|now right].
        -- exfalso.
           apply (@score_categories_no_exit sims category_indices top_k [] c).
           now rewrite Hsc.
Qed.

Lemma classify_image_decode_failure (image_path : string) (model : Model)
  (text_features : list (list F)) (category_indices : Dict.t (list nat))
  (top_k : Z) (e : string) :
  image_open w image_path = inl e ->
  classify_image w image_path model text_features category_indices top_k
  = ([ImageOpen image_path], Ret (None, None, None, Some e)).
Proof. intros H. unfold classify_image. now rewrite H. Qed.

Lemma classify_image_inference_failure (image_path : string) (model : Model)
  (text_features : list (list F)) (category_indices : Dict.t (list nat))
  (top_k : Z) (image : Image) (e : string) :
  image_open w image_path = inr image ->
  get_image_features model image = inl e ->
  classify_image w image_path model text_features category_indices top_k
  = ([ImageOpen image_path; ImageFeatures image_path],
     Ret (None, None, None, Some e)).
Proof. intros H1 H2. unfold classify_image. now rewrite H1; simpl; rewrite H2. Qed.

(** The run of [classify_image] on an image that decodes and embeds, against
    an index whose grouping only names rows that exist. *)
Lemma classify_image_success (image_path : string) (model : Model)
  (text_features : list (list F)) (category_indices : Dict.t (list nat))
  (top_k : Z) (image : Image) (v sims : list F)
  (first : string * list nat) (others : list (string * list nat)) :
  image_open w image_path = inr image ->
  get_image_features model image = inr v ->
  similarities (normalize v) text_features = inr sims ->
  category_indices = first :: others ->
  (forall c idxs i,
     In (c, idxs) category_indices -> In i idxs -> i < length sims) ->
  NoDup (Dict.keys category_indices) ->
  (0 <= top_k)%Z ->
  let scores :=
    map (fun item => (fst item, category_score sims top_k (snd item)))
      category_indices in
  let best :=
    max_item (fst first, category_score sims top_k (snd first))
      (map (fun item => (fst item, category_score sims top_k (snd item)))
         others) in
  classify_image w image_path model text_features category_indices top_k
  = ([ImageOpen image_path; ImageFeatures image_path],
     Ret (Some (fst best), Some (snd best), Some scores, None)).
Proof.
  intros Ho Hf Hs Hci Hr Hnd Hk scores best. unfold classify_image.
  rewrite Ho. simpl. rewrite Hf. simpl. rewrite Hs. simpl.
  rewrite score_categories_ok by assumption. simpl.
  subst category_indices. reflexivity.
Qed.

End Scoring.

(** ** The rows of a category *)

Section Rows.

Lemma NoDup_keys_prompted (categories : Dict.t (list string)) :
  NoDup (Dict.keys categories) -> NoDup (Dict.keys (prompted categories)).
Proof.
  induction categories as [|[c ps] cs IH]; simpl; intros Hnd.
  - constructor.
  - inversion Hnd as [|? ? Hnotin Hnd']; subst.
    destruct ps; simpl; auto.
    constructor; auto.
    intros Hin. apply Hnotin. now apply keys_prompted_incl.
Qed.

Lemma NoDup_keys_index_ranges (categories : Dict.t (list string))
  (offset : nat) :
  NoDup (Dict.keys categories) ->
  NoDup (Dict.keys (index_ranges offset categories)).
Proof.
  intros Hnd. rewrite keys_index_ranges. now apply NoDup_keys_prompted.
Qed.

Lemma index_ranges_bound (categories : Dict.t (list string)) (base : nat)
  (c : string) (idxs : list nat) (i : nat) :
  In (c, idxs) (index_ranges base categories) -> In i idxs ->
  i < base + length (flat_map snd categories).
Proof.
  revert base. induction categories as [|[c' ps] cs IH]; intros base;
    cbn [index_ranges flat_map snd]; [intros []|].
  rewrite length_app. destruct ps as [|p ps].
  - intros Hin Hi. specialize (IH base Hin Hi). simpl. lia.
  - intros [Heq|Hin] Hi.
    + injection Heq as <- <-.
      apply (in_seq (length (p :: ps)) base i) in Hi. lia.
    + specialize (IH _ Hin Hi). lia.
Qed.

Lemma rows_app_left {A} (l1 l2 : list A) :
  rows 0 (length l1) (l1 ++ l2) = l1.
Proof.
  unfold rows. simpl. rewrite firstn_app, Nat.sub_diag, firstn_all.
  simpl. apply app_nil_r.
Qed.

Lemma rows_app_right {A} (l1 l2 : list A) (offset n : nat) :
  rows (length l1 + offset) n (l1 ++ l2) = rows offset n l2.
Proof.
  unfold rows. rewrite skipn_app.
  replace (length l1 + offset - length l1) with offset by lia.
  rewrite skipn_all2 by lia. reflexivity.
Qed.

(** A category with prompts owns a block of consecutive rows of the
    flattened prompt list, and that block is its prompt list. *)
Lemma index_ranges_own (categories : Dict.t (list string)) (base : nat)
  (c : string) (prompts : list string) :
  In (c, prompts) categories -> prompts <> [] ->
  exists offset,
    In (c, seq (base + offset) (length prompts))
      (index_ranges base categories) /\
    rows offset (length prompts) (flat_map snd categories) = prompts /\
    offset + length prompts <= length (flat_map snd categories).
Proof.
  revert base. induction categories as [|[c' ps] cs IH]; intros base;
    cbn [index_ranges flat_map snd]; [intros []|].
  intros [Heq|Hin] Hne.
  - injection Heq as -> ->. exists 0. destruct prompts as [|p ps];
      [congruence|]. rewrite Nat.add_0_r. split; [now left|]. split.
    + apply rows_app_left.
    + rewrite length_app. lia.
  - destruct ps as [|p ps].
    + apply IH; assumption.
    + destruct (IH (base + length (p :: ps)) Hin Hne)
        as [offset [H1 [H2 H3]]].
      exists (length (p :: ps) + offset). split; [|split].
      * right. now rewrite Nat.add_assoc.
      * now rewrite rows_app_right.
      * rewrite length_app. lia.
Qed.

Lemma get_map_values {V W} (f : V -> W) (d : Dict.t V) (k : string) :
  Dict.get k (map (fun item => (fst item, f (snd item))) d)
  = option_map f (Dict.get k d).
Proof.
  induction d as [|[k' v] d IH]; simpl; [reflexivity|].
  destruct (String.eqb k k'); auto.
Qed.

End Rows.

(** ** The claims *)

Section Claims.

Context {F : Type} {AF : Arith F} {Image : Type}.
Variable w : World (F:=F) (Image:=Image).

Lemma values_of_range (sims : list F) (offset n : nat) :
  offset + n <= length sims ->
  map (fun i => nth i sims fzero) (seq offset n) = rows offset n sims.
Proof.
  intros Hle. pose proof (@gather_range_rows _ _ sims offset n Hle) as H1.
  rewrite gather_in_range in H1.
  - now injection H1.
  - intros i Hi. apply in_seq in Hi. lia.
Qed.

Lemma rows_length {A} (t : list A) (offset n : nat) :
  offset + n <= length t -> length (rows offset n t) = n.
Proof. intros H. unfold rows. rewrite length_firstn, length_skipn. lia. Qed.

Lemma rows_incl {A} (t : list A) (offset n : nat) : incl (rows offset n t) t.
Proof.
  intros x Hx. unfold rows in Hx.
  rewrite <- (firstn_skipn offset t). apply in_or_app. right.
  rewrite <- (firstn_skipn n (skipn offset t)). apply in_or_app. now left.
Qed.

(** C1.  With [top_k >= 1], on an image that decodes and embeds against an
    index with one row per prompt: every category that has prompts owns the
    consecutive rows of its own prompts, and its score is the arithmetic mean
    of the [k = min(top_k, number of prompts)] highest similarity values
    found at those rows: the sum of [k] selected values, none of them exceeded
    by a value left out, divided by [k].  With any [top_k] at or above the
    number of prompts the score is the sum of all the category's values
    divided by their number, the same as with [top_k] equal to that
    number. *)
Theorem category_score_is_topk_mean
  (model : Model) (categories : Dict.t (list string)) (image_path : string)
  (image : Image) (text_outputs : list (list F)) (v sims : list F)
  (top_k : Z) (c : string) (prompts : list string) :
  NoDup (Dict.keys categories) ->
  get_text_features model (fst (flatten_categories categories))
    = inr text_outputs ->
  length text_outputs = length (fst (flatten_categories categories)) ->
  image_open w image_path = inr image ->
  get_image_features model image = inr v ->
  similarities (normalize v) (map normalize text_outputs) = inr sims ->
  gt_strict_on sims ->
  (1 <= top_k)%Z ->
  In (c, prompts) categories ->
  prompts <> [] ->
  exists (offset : nat) (category_indices : Dict.t (list nat)),
    outcome (precompute_text_features model categories)
      = Ret (map normalize text_outputs,
             snd (flatten_categories categories), category_indices) /\
    Dict.get c category_indices = Some (seq offset (length prompts)) /\
    rows offset (length prompts) (fst (flatten_categories categories))
      = prompts /\
    let own := rows offset (length prompts) sims in
    let k := Nat.min (Z.to_nat top_k) (length prompts) in
    (exists best confidence scores top rest,
        outcome (classify_image w image_path model
                   (map normalize text_outputs) category_indices top_k)
          = Ret (Some best, Some confidence, Some scores, None) /\
        Dict.get c scores
          = Some (fdiv (fold_left fadd top fzero) (fofnat k)) /\
        Permutation own (top ++ rest) /\
        length top = k /\
        (forall x y, In x top -> In y rest -> fgt y x = false)) /\
    (forall top_k', (Z.of_nat (length prompts) <= top_k')%Z ->
       exists best confidence scores,
         outcome (classify_image w image_path model
                    (map normalize text_outputs) category_indices top_k')
           = Ret (Some best, Some confidence, Some scores, None) /\
         Dict.get c scores
           = Some (fdiv (fold_left fadd (sort_desc own) fzero)
                     (fofnat (length prompts)))).
Proof.
  intros Hnd Htext Hlen Hopen Hfeat Hsims Hgt Hk Hin Hne.
  rewrite flatten_categories_spec in *. cbn [fst snd] in *.
  destruct (@index_ranges_own categories 0 c prompts Hin Hne)
    as [offset [Hown [Hrows Hle]]].
  cbn [Nat.add] in Hown.
  exists offset, (index_ranges 0 categories).
  assert (Hget : Dict.get c (index_ranges 0 categories)
                 = Some (seq offset (length prompts))).
  { apply DictFacts.in_get; [now apply NoDup_keys_index_ranges|exact Hown]. }
  assert (Hsl : length sims = length (flat_map snd categories)).
  { rewrite (@similarities_length _ _ _ _ _ Hsims), length_map. exact Hlen. }
  assert (Hbound : forall c' idxs i,
             In (c', idxs) (index_ranges 0 categories) -> In i idxs ->
             i < length sims).
  { intros c' idxs i H1 H2. rewrite Hsl.
    apply (@index_ranges_bound categories 0 c' idxs i H1 H2). }
  assert (Hlo : offset + length prompts <= length sims) by lia.
  assert (Hrun : forall tk, (0 <= tk)%Z ->
            exists best confidence scores,
              outcome (classify_image w image_path model
                         (map normalize text_outputs)
                         (index_ranges 0 categories) tk)
                = Ret (Some best, Some confidence, Some scores, None) /\
              Dict.get c scores
                = Some (mean (firstn (Z.to_nat
                                        (Z.min tk
                                           (Z.of_nat (length prompts))))
                                (sort_desc
                                   (rows offset (length prompts) sims))))).
  { intros tk Htk.
    destruct (index_ranges 0 categories) as [|first others] eqn:Hci;
      [discriminate|].
    pose proof (@NoDup_keys_index_ranges categories 0 Hnd) as Hnd'.
    rewrite Hci in Hnd'.
    pose proof (@classify_image_success _ _ _ w image_path model
                  (map normalize text_outputs) (first :: others) tk
                  image v sims first others
                  Hopen Hfeat Hsims eq_refl Hbound Hnd' Htk) as Hrun.
    cbv zeta in Hrun. rewrite Hrun. cbn [outcome snd].
    eexists _, _, _. split; [reflexivity|].
    rewrite get_map_values, Hget. cbn [option_map]. f_equal.
    unfold category_score.
    rewrite values_of_range by exact Hlo. now rewrite length_seq. }
  set (own := rows offset (length prompts) sims) in *.
  assert (Hol : length own = length prompts) by (apply rows_length; lia).
  split; [|split; [exact Hget|split; [exact Hrows|split]]].
  - unfold precompute_text_features.
    rewrite (@group_indices_ranges categories Hnd).
    rewrite flatten_categories_spec. cbn [fst snd].
    rewrite Htext. reflexivity.
  - destruct (Hrun top_k ltac:(lia)) as [best [conf [scores [Hout Hsc]]]].
    set (k := Nat.min (Z.to_nat top_k) (length prompts)).
    assert (Hkl : k <= length own) by (unfold k; lia).
    destruct (@topk_highest _ _ own k Hkl) as [_ [Hlen' [Hperm Hhigh]]].
    exists best, conf, scores, (firstn k (sort_desc own)),
      (skipn k (sort_desc own)).
    split; [exact Hout|]. split; [|split; [exact Hperm|split]].
    + rewrite Hsc.
      replace (Z.to_nat (Z.min top_k (Z.of_nat (length prompts)))) with k
        by (unfold k; lia).
      unfold mean, fsum. rewrite Hlen'. reflexivity.
    + exact Hlen'.
    + apply Hhigh. apply (gt_strict_on_incl (l:=sims)); [|exact Hgt].
      apply rows_incl.
  - intros tk Htk.
    destruct (Hrun tk ltac:(lia)) as [best [conf [scores [Hout Hsc]]]].
    exists best, conf, scores. split; [exact Hout|].
    rewrite Hsc. rewrite firstn_all2 by (rewrite sort_desc_length; lia).
    unfold mean, fsum. rewrite sort_desc_length, Hol. reflexivity.
Qed.









(** ** The batch loop *)

Lemma classify_image_returns (image_path : string) (model : Model)
  (text_features : list (list F)) (category_indices : Dict.t (list nat))
  (top_k : Z) :
  classify_image w image_path model text_features category_indices top_k
  = (trace (classify_image w image_path model text_features
              category_indices top_k),
     Ret (returned (classify_image w image_path model text_features
                      category_indices top_k))).
Proof.
  destruct (classify_image_total w image_path model text_features
              category_indices top_k) as [r [Hr _]].
  unfold returned. rewrite Hr.
  destruct (classify_image w image_path model text_features
              category_indices top_k) as [t o].
  simpl in *. now subst o.
Qed.

Lemma classify_loop_run (model : Model) (text_features : list (list F))
  (category_indices : Dict.t (list nat)) (top_k : Z) (total : nat)
  (images : list string) (idx : nat)
  (results : list ResultEntry) (errors : list ErrorEntry) :
  let cls p := returned (classify_image w p model text_features
                           category_indices top_k) in
  classify_loop w model text_features category_indices top_k total idx
    images results errors
  = (flat_map (turn w model text_features category_indices top_k total)
       (combine (seq idx (length images)) images),
     Ret (results ++
            map (fun p => result_entry p (cls p))
              (filter (fun p => negb (truthy (snd (cls p)))) images),
          errors ++
            map (fun p => error_entry p (cls p))
              (filter (fun p => truthy (snd (cls p))) images))).
Proof.
  intros cls. revert idx results errors.
  induction images as [|p images IH]; intros idx results errors.
  - simpl. now rewrite !app_nil_r.
  - cbn [classify_loop]. rewrite classify_image_returns. fold (cls p).
    unfold send_progress, send_response, emit.
    cbn [length seq combine flat_map filter].
    unfold turn at 1. cbn [fst snd].
    destruct (cls p) as [[[category confidence] scores] error] eqn:Hc.
    cbn [snd bind]. destruct (truthy error) eqn:Ht; cbn [negb];
      rewrite IH; cbn [app map fst snd];
      unfold error_entry, result_entry; rewrite Hc; cbn [snd];
      rewrite <- !app_assoc; reflexivity.
Qed.

(** The whole run of [handle_classify] once the model is loaded and the
    text tower has answered. *)
Lemma handle_classify_run (request : Request) (model : Model)
  (text_outputs : list (list F)) :
  from_pretrained w (model_name_of request) (get_device w) = inr model ->
  get_text_features model (fst (flatten_categories (categories_of request)))
    = inr text_outputs ->
  let text_features := map normalize text_outputs in
  let category_indices :=
    group_indices (snd (flatten_categories (categories_of request))) in
  let images := images_of request in
  let cls p := returned (classify_image w p model text_features
                           category_indices (top_k_of request)) in
  handle_classify w request
  = ([Out (Status ("Loading model on " ++ get_device w ++ "...")%string);
      LoadModel (model_name_of request) (get_device w);
      Out (Status "Precomputing text features...");
      TextFeatures (fst (flatten_categories (categories_of request)))]
       ++ flat_map (turn w model text_features category_indices
                      (top_k_of request) (length images))
            (enumerate images)
       ++ [Out (ClassifyResponse (get_device w)
                  (map (fun p => result_entry p (cls p))
                     (filter (fun p => negb (truthy (snd (cls p)))) images))
                  (map (fun p => error_entry p (cls p))
                     (filter (fun p => truthy (snd (cls p))) images)))],
      Ret tt).
Proof.
  intros Hload Htext text_features category_indices images cls.
  unfold handle_classify.
  fold (config_of request). fold (images_of request).
  fold (model_name_of request). fold (categories_of request).
  fold (top_k_of request).
  unfold load_model, precompute_text_features. rewrite Hload.
  cbn [call bind ret try_except send_response emit app].
  rewrite Htext.
  cbn [call bind ret try_except send_response emit app].
  fold text_features. fold category_indices. fold images.
  rewrite classify_loop_run. fold cls.
  cbn [bind ret send_response emit app fst snd]. unfold enumerate.
  reflexivity.
Qed.

Lemma truthy_message (e : string) :
  e <> EmptyString -> truthy (Some e) = true.
Proof.
  intros H. unfold truthy. destruct (String.eqb_spec e EmptyString);
    [contradiction|reflexivity].
Qed.

(** What the two lists of the final response hold: each image is listed
    once, in input order, under [errors] when [classify_image] returned a
    non-empty error message and under [results] otherwise; an image that
    failed with a non-empty message is reported with its path and that
    message. *)
Lemma response_lists (request : Request) (model : Model)
  (text_outputs : list (list F)) :
  from_pretrained w (model_name_of request) (get_device w) = inr model ->
  get_text_features model (fst (flatten_categories (categories_of request)))
    = inr text_outputs ->
  let cls p :=
    returned (classify_image w p model (map normalize text_outputs)
                (group_indices
                   (snd (flatten_categories (categories_of request))))
                (top_k_of request)) in
  exists results errors,
    last (trace (handle_classify w request)) (Out (Progress 0 0))
      = Out (ClassifyResponse (get_device w) results errors) /\
    map (fun r => r_path r) results
      = filter (fun p => negb (truthy (snd (cls p)))) (images_of request) /\
    map (fun e => e_path e) errors
      = filter (fun p => truthy (snd (cls p))) (images_of request) /\
    (forall p e, In p (images_of request) -> snd (cls p) = Some e ->
       e <> EmptyString -> In {| e_path := p; e_error := e |} errors).
Proof.
  intros Hload Htext cls.
  rewrite (handle_classify_run request Hload Htext). cbn [trace fst].
  eexists _, _. split; [|split; [|split]].
  - rewrite app_assoc. apply last_last.
  - rewrite map_map.
    induction (filter _ (images_of request)) as [|p l IH];
      [reflexivity|].
    cbn [map]. rewrite IH. f_equal. unfold result_entry.
    now destruct (returned _) as [[[? ?] ?] ?].
  - rewrite map_map. cbn [error_entry e_path]. apply map_id.
  - intros p e Hin Hcls Hne. apply in_map_iff. exists p. split.
    + unfold error_entry. fold (cls p). now rewrite Hcls.
    + apply filter_In. split; [exact Hin|].
      fold (cls p). rewrite Hcls. now apply truthy_message.
Qed.

Lemma progress_messages_app (t1 t2 : list (Event (F:=F))) :
  progress_messages (t1 ++ t2) = progress_messages t1 ++ progress_messages t2.
Proof.
  induction t1 as [|ev t1 IH]; simpl; [reflexivity|].
  destruct ev as [[]| | | |]; simpl; now rewrite IH.
Qed.

Lemma turn_shape (model : Model) (text_features : list (list F))
  (category_indices : Dict.t (list nat)) (top_k : Z) (total : nat)
  (ip : nat * string) :
  exists calls,
    turn w model text_features category_indices top_k total ip
    = Out (Progress (fst ip + 1) total) :: ImageOpen (snd ip) :: calls /\
    output calls = [] /\ progress_messages calls = [].
Proof.
  unfold turn.
  destruct (classify_image_total w (snd ip) model text_features
              category_indices top_k) as [r [_ [Ht|Ht]]]; rewrite Ht.
  - exists []. auto.
  - exists [ImageFeatures (snd ip)]. auto.
Qed.

Lemma progress_messages_turns (model : Model) (text_features : list (list F))
  (category_indices : Dict.t (list nat)) (top_k : Z) (total : nat)
  (images : list string) (idx : nat) :
  progress_messages
    (flat_map (turn w model text_features category_indices top_k total)
       (combine (seq idx (length images)) images))
  = map (fun i => (i, total)) (seq (idx + 1) (length images)).
Proof.
  revert idx. induction images as [|p images IH]; intros idx;
    cbn [length seq combine flat_map map]; [reflexivity|].
  destruct (turn_shape model text_features category_indices top_k total
              (idx, p)) as [calls [Ht [_ Hp]]].
  rewrite Ht. cbn [app progress_messages fst snd].
  rewrite progress_messages_app, Hp, IH.
  replace (S idx + 1) with (S (idx + 1)) by lia. reflexivity.
Qed.

(** C7.  Once the model is loaded and the index is built, the run of
    [handle_classify] is: for each image in input order its progress message
    [(i, total)], [i] counted from 1, immediately followed by the decoding
    and embedding calls for that image, which write nothing; then the final
    response.  The progress messages of the whole run are exactly
    [(1, total)], ..., [(total, total)].  With no images there is no progress
    message and the response is a success with empty results and errors. *)
Theorem progress_precedes_each_image (request : Request) (model : Model)
  (text_outputs : list (list F)) :
  from_pretrained w (model_name_of request) (get_device w) = inr model ->
  get_text_features model (fst (flatten_categories (categories_of request)))
    = inr text_outputs ->
  let images := images_of request in
  let total := length images in
  let text_features := map normalize text_outputs in
  let category_indices :=
    group_indices (snd (flatten_categories (categories_of request))) in
  let setup :=
    [Out (Status ("Loading model on " ++ get_device w ++ "...")%string);
     LoadModel (model_name_of request) (get_device w);
     Out (Status "Precomputing text features...");
     TextFeatures (fst (flatten_categories (categories_of request)))] in
  (exists results errors,
     handle_classify w request
     = (setup
          ++ flat_map (turn w model text_features category_indices
                         (top_k_of request) total)
               (enumerate images)
          ++ [Out (ClassifyResponse (get_device w) results errors)],
        Ret tt)) /\
  (forall ip, In ip (enumerate images) ->
     exists calls,
       turn w model text_features category_indices (top_k_of request) total
         ip
       = Out (Progress (fst ip + 1) total) :: ImageOpen (snd ip) :: calls /\
       output calls = []) /\
  progress_messages (trace (handle_classify w request))
    = map (fun i => (i, total)) (seq 1 total) /\
  (images = [] ->
   handle_classify w request
   = (setup ++ [Out (ClassifyResponse (get_device w) [] [])], Ret tt)).
Proof.
  intros Hload Htext images total text_features category_indices setup.
  pose proof (handle_classify_run request Hload Htext) as Hrun.
  cbv zeta in Hrun. fold images in Hrun. fold text_features in Hrun.
  fold category_indices in Hrun. fold total in Hrun. fold setup in Hrun.
  split; [|split; [|split]].
  - eexists _, _. exact Hrun.
  - intros ip _.
    destruct (turn_shape model text_features category_indices
                (top_k_of request) total ip) as [calls [H1 [H2 _]]].
    exists calls. auto.
  - rewrite Hrun. cbn [trace fst]. unfold setup, enumerate.
    rewrite !progress_messages_app, progress_messages_turns.
    cbn [progress_messages app]. now rewrite app_nil_r.
  - intros Hnil. rewrite Hrun. rewrite Hnil. reflexivity.
Qed.

(** ** Fatal paths *)

Lemma handle_classify_load_failure (request : Request) (e : string) :
  from_pretrained w (model_name_of request) (get_device w) = inl e ->
  handle_classify w request
  = ([Out (Status ("Loading model on " ++ get_device w ++ "...")%string);
      LoadModel (model_name_of request) (get_device w);
      Out (ErrorResponse ("Failed to load model: " ++ e)%string)],
     Ret tt).
Proof.
  intros Hload. unfold handle_classify.
  fold (config_of request). fold (model_name_of request).
  unfold load_model. rewrite Hload. reflexivity.
Qed.

Lemma handle_classify_index_failure (request : Request) (model : Model)
  (e : string) :
  from_pretrained w (model_name_of request) (get_device w) = inr model ->
  get_text_features model (fst (flatten_categories (categories_of request)))
    = inl e ->
  handle_classify w request
  = ([Out (Status ("Loading model on " ++ get_device w ++ "...")%string);
      LoadModel (model_name_of request) (get_device w);
      Out (Status "Precomputing text features...");
      TextFeatures (fst (flatten_categories (categories_of request)))],
     Raise e).
Proof.
  intros Hload Htext. unfold handle_classify.
  fold (config_of request). fold (model_name_of request).
  fold (categories_of request).
  unfold load_model, precompute_text_features. rewrite Hload.
  cbn [call bind ret try_except send_response emit app].
  rewrite Htext. reflexivity.
Qed.

Lemma command_is_false (command : Command) (name : string) :
  command <> CmdStr name -> command_is command name = false.
Proof.
  destruct command as [s|r]; simpl; [|reflexivity].
  intros H. destruct (String.eqb_spec s name); congruence.
Qed.

(** C8.  On input that is not JSON, and on a request whose command is
    neither [classify] nor [check], the worker writes one error response and
    nothing else, calls no collaborator, and exits with status 1. *)
Theorem rejected_input_is_fatal (input_data error : string) :
  Rejected w input_data error ->
  main w input_data = ([Out (ErrorResponse error)], SysExit 1%Z) /\
  output (trace (main w input_data)) = [ErrorResponse error] /\
  progress_messages (trace (main w input_data)) = [] /\
  filter is_call (trace (main w input_data)) = [] /\
  exit_code (main w input_data) <> 0%Z.
Proof.
  intros Hrej.
  assert (Hmain : main w input_data
                  = ([Out (ErrorResponse error)], SysExit 1%Z)).
  { destruct Hrej as [msg Hparse|request command Hparse Hcmd Hc1 Hc2];
      unfold main; rewrite Hparse.
    - reflexivity.
    - rewrite Hcmd. cbn [get_or].
      now rewrite (command_is_false Hc1), (command_is_false Hc2). }
  rewrite Hmain. repeat split. discriminate.
Qed.

(** C10.  A request object without a [command] key is handled as a classify
    request: the run is that of [handle_classify], the same as with the key
    set to [classify], and it opens with the model-loading status line. *)
Theorem missing_command_means_classify (input_data : string)
  (request : Request) :
  json_loads w input_data = Document request ->
  req_command request = None ->
  main w input_data = handle_classify w request /\
  handle_classify w request
    = handle_classify w
        {| req_command := Some (CmdStr "classify");
           req_config := req_config request;
           req_images := req_images request |} /\
  hd_error (trace (main w input_data))
    = Some (Out (Status ("Loading model on " ++ get_device w ++ "...")%string))
  /\
  forall command,
    ~ In (Out (ErrorResponse ("Unknown command: " ++ command)%string))
        (trace (main w input_data)).
Proof.
  intros Hparse Hcmd.
  assert (Hmain : main w input_data = handle_classify w request).
  { unfold main. rewrite Hparse, Hcmd. reflexivity. }
  split; [exact Hmain|]. split; [reflexivity|]. rewrite Hmain.
  destruct (from_pretrained w (model_name_of request) (get_device w))
    as [e|model] eqn:Hload.
  - rewrite (handle_classify_load_failure request Hload). split; [reflexivity|].
    intros command [H|[H|[H|[]]]]; discriminate.
  - destruct (get_text_features model
                (fst (flatten_categories (categories_of request))))
      as [e|text_outputs] eqn:Htext.
    + rewrite (handle_classify_index_failure request Hload Htext).
      split; [reflexivity|].
      intros command [H|[H|[H|[H|[]]]]]; discriminate.
    + rewrite (handle_classify_run request Hload Htext).
      split; [reflexivity|].
      intros command Hin. cbn [trace fst] in Hin.
      apply in_app_or in Hin as [Hin|Hin].
      * destruct Hin as [H|[H|[H|[H|[]]]]]; discriminate.
      * apply in_app_or in Hin as [Hin|[H|[]]]; [|discriminate].
        apply in_flat_map in Hin as [ip [_ Hin]].
        destruct (turn_shape model
                    (map normalize text_outputs)
                    (group_indices
                       (snd (flatten_categories (categories_of request))))
                    (top_k_of request)
                    (length (images_of request)) ip)
          as [calls [Ht _]].
        unfold turn in Ht, Hin.
        destruct (classify_image_total w (snd ip) model
                    (map normalize text_outputs)
                    (group_indices
                       (snd (flatten_categories (categories_of request))))
                    (top_k_of request)) as [r [_ [Hc|Hc]]];
          rewrite Hc in Hin;
          repeat (destruct Hin as [Hin|Hin]; [discriminate|]);
          destruct Hin.
Qed.

(** ** Normalisation and empty categories *)

(** C3, as the code has it.  No embedding is rejected for its norm.  With a
    text tower and an image tower that answer, whatever the norms of their
    vectors (zero included): the index is built, each of its rows is the
    embedding divided componentwise by its own norm, the image vector is
    divided by its norm in the same way, and the image is scored and
    classified. *)
Theorem normalization_divides_whatever_the_norm
  (model : Model) (categories : Dict.t (list string)) (image_path : string)
  (image : Image) (text_outputs : list (list F)) (v sims : list F)
  (top_k : Z) :
  NoDup (Dict.keys categories) ->
  prompted categories <> [] ->
  get_text_features model (fst (flatten_categories categories))
    = inr text_outputs ->
  length text_outputs = length (fst (flatten_categories categories)) ->
  image_open w image_path = inr image ->
  get_image_features model image = inr v ->
  similarities (normalize v) (map normalize text_outputs) = inr sims ->
  (0 <= top_k)%Z ->
  exists text_features category_indices best confidence scores,
    outcome (precompute_text_features model categories)
      = Ret (text_features, snd (flatten_categories categories),
             category_indices) /\
    (forall i row, nth_error text_outputs i = Some row ->
       nth_error text_features i
         = Some (map (fun x => fdiv x (norm row)) row)) /\
    similarities (map (fun x => fdiv x (norm v)) v) text_features
      = inr sims /\
    outcome (classify_image w image_path model text_features
               category_indices top_k)
      = Ret (Some best, Some confidence, Some scores, None).
Proof.
  intros Hnd Hne Htext Hlen Hopen Hfeat Hsims Hk.
  exists (map normalize text_outputs), (index_ranges 0 categories).
  assert (Hpre : outcome (precompute_text_features model categories)
                 = Ret (map normalize text_outputs,
                        snd (flatten_categories categories),
                        index_ranges 0 categories)).
  { unfold precompute_text_features.
    rewrite (@group_indices_ranges categories Hnd), Htext. reflexivity. }
  rewrite flatten_categories_spec in Hlen. cbn [fst] in Hlen.
  assert (Hbound : forall c' idxs i,
             In (c', idxs) (index_ranges 0 categories) -> In i idxs ->
             i < length sims).
  { intros c' idxs i H1 H2.
    rewrite (@similarities_length _ _ _ _ _ Hsims), length_map, Hlen.
    apply (@index_ranges_bound categories 0 c' idxs i H1 H2). }
  pose proof (@NoDup_keys_index_ranges categories 0 Hnd) as Hnd'.
  destruct (index_ranges 0 categories) as [|first others] eqn:Hci.
  - exfalso. apply Hne.
    assert (Hk0 : Dict.keys (prompted categories) = []).
    { rewrite <- (keys_index_ranges categories 0), Hci. reflexivity. }
    destruct (prompted categories); [reflexivity|discriminate].
  - pose proof (@classify_image_success _ _ _ w image_path model
                  (map normalize text_outputs) (first :: others) top_k
                  image v sims first others
                  Hopen Hfeat Hsims eq_refl Hbound Hnd' Hk) as Hrun.
    cbv zeta in Hrun. eexists _, _, _.
    split; [exact Hpre|]. split; [|split].
    + intros i row Hrow. rewrite nth_error_map, Hrow. reflexivity.
    + exact Hsims.
    + rewrite Hrun. reflexivity.
Qed.

Lemma flatten_prompted (categories : Dict.t (list string)) :
  flatten_categories (prompted categories) = flatten_categories categories.
Proof.
  rewrite !flatten_categories_spec.
  induction categories as [|[c [|p ps]] cs IH]; cbn [prompted filter snd].
  - reflexivity.
  - exact IH.
  - injection IH as IH1 IH2. cbn [flat_map fst snd].
    unfold prompted in IH1, IH2. now rewrite IH1, IH2.
Qed.

Lemma keys_prompted_nonempty (categories : Dict.t (list string))
  (c : string) :
  NoDup (Dict.keys categories) ->
  In (c, []) categories -> ~ In c (Dict.keys (prompted categories)).
Proof.
  intros Hnd Hin Hk. unfold Dict.keys in Hk.
  apply in_map_iff in Hk as [[c' ps] [Hc Hp]]. cbn [fst] in Hc. subst c'.
  apply filter_In in Hp as [Hp Hne].
  pose proof (DictFacts.in_get _ _ _ Hnd Hin) as H1.
  pose proof (DictFacts.in_get _ _ _ Hnd Hp) as H2.
  rewrite H1 in H2. injection H2 as <-. discriminate.
Qed.

(** C9, as the code has it.  A category with an empty prompt list is not
    rejected.  It gets no row and no entry in the grouping of the index, so
    it never appears in a scores mapping, and the request runs exactly as the
    same request without its categories that have no prompt. *)
Theorem empty_prompt_category_is_dropped (request : Request) (c : string) :
  NoDup (Dict.keys (categories_of request)) ->
  In (c, []) (categories_of request) ->
  handle_classify w request
    = handle_classify w
        (with_categories request (prompted (categories_of request))) /\
  Dict.get c
    (group_indices (snd (flatten_categories (categories_of request))))
    = None /\
  forall model,
    precompute_text_features (F:=F) (Image:=Image) model
      (categories_of request)
    = precompute_text_features model (prompted (categories_of request)).
Proof.
  intros Hnd Hin.
  assert (Hpre : forall model,
            precompute_text_features (F:=F) (Image:=Image) model
              (categories_of request)
            = precompute_text_features model
                (prompted (categories_of request))).
  { intros model. unfold precompute_text_features.
    now rewrite flatten_prompted. }
  split; [|split; [|exact Hpre]].
  - unfold handle_classify, with_categories.
    fold (config_of request). fold (categories_of request).
    cbn [req_config req_images get_or cfg_model cfg_categories cfg_topK].
    destruct (try_except _ _) as [t [[model|]|e|code]]; try reflexivity.
    cbn [bind]. now rewrite Hpre.
  - rewrite (@group_indices_ranges _ Hnd).
    apply DictFacts.get_none_notin. rewrite keys_index_ranges.
    now apply keys_prompted_nonempty.
Qed.

End Claims.

(** * Runs on the concrete world *)

Import Example.

Ltac split_in :=
  repeat match goal with
         | H : In _ _ |- _ => simpl in H
         | H : _ \/ _ |- _ => destruct H as [H|H]
         | H : False |- _ => destruct H
         end; subst.

Ltac nodup_strings :=
  repeat constructor; simpl; intros H; split_in; discriminate.

Ltac float_laws :=
  unfold gt_strict_on, eq_respects_gt_on;
  repeat split; intros; split_in; vm_compute; intros;
  first [reflexivity | discriminate].

(** The theorem of C1 on [cat.png] against two cat prompts and one dog
    prompt, with [top_k = 2]: the similarities are 1, 3/5 and 0, and the
    score of [cat] is (1 + 3/5) / 2, which is neither of its two values. *)
Lemma category_score_is_topk_mean_witness :
  outcome (classify_image world "cat.png" clip
             (map normalize cat_kitten_dog_outputs)
             (group_indices (snd (flatten_categories cat_kitten_dog))) 2)
    = Ret (Some "cat", Some ((0 + 1 + 3 / 5) / 2)%float,
           Some [("cat", ((0 + 1 + 3 / 5) / 2)%float); ("dog", 0%float)],
           None) /\
  PrimFloat.ltb ((0 + 1 + 3 / 5) / 2) 1 = true /\
  exists (offset : nat) (category_indices : Dict.t (list nat)),
    outcome (precompute_text_features clip cat_kitten_dog)
      = Ret (map normalize cat_kitten_dog_outputs,
             snd (flatten_categories cat_kitten_dog), category_indices) /\
    Dict.get "cat" category_indices = Some (seq offset 2) /\
    rows offset 2 (fst (flatten_categories cat_kitten_dog))
      = ["a photo of a cat"; "a sleeping kitten"] /\
    let own := rows offset 2 [1; 3 / 5; 0]%float in
    (exists best confidence scores top rest,
        outcome (classify_image world "cat.png" clip
                   (map normalize cat_kitten_dog_outputs)
                   category_indices 2)
          = Ret (Some best, Some confidence, Some scores, None) /\
        Dict.get "cat" scores
          = Some (fdiv (fold_left fadd top fzero) (fofnat 2)) /\
        Permutation own (top ++ rest) /\
        length top = 2 /\
        (forall x y, In x top -> In y rest -> fgt y x = false)) /\
    (forall top_k', (2 <= top_k')%Z ->
       exists best confidence scores,
         outcome (classify_image world "cat.png" clip
                    (map normalize cat_kitten_dog_outputs)
                    category_indices top_k')
           = Ret (Some best, Some confidence, Some scores, None) /\
         Dict.get "cat" scores
           = Some (fdiv (fold_left fadd (sort_desc own) fzero) (fofnat 2))).
Proof.
  split; [vm_compute; reflexivity|]. split; [reflexivity|].
  apply (@category_score_is_topk_mean float float_arith Picture world clip
           cat_kitten_dog "cat.png" CatLike cat_kitten_dog_outputs
           [2; 0]%float [1; 3 / 5; 0]%float 2%Z "cat"
           ["a photo of a cat"; "a sleeping kitten"]).
  - nodup_strings.
  - reflexivity.
  - reflexivity.
  - reflexivity.
  - reflexivity.
  - vm_compute. reflexivity.
  - float_laws.
  - lia.
  - simpl. auto.
  - discriminate.
Defined.


(** C3 fails on the code: the image tower returns the zero vector for
    [black.png], its norm is zero, and the image is nevertheless classified,
    with a confidence and scores that are NaN; the text tower returns the
    zero vector for the prompt of [blank], and the index is built with a row
    of NaN. *)
Lemma zero_norm_embedding_is_not_rejected :
  get_image_features clip Black = inr [0; 0]%float /\
  norm [0; 0]%float = 0%float /\
  classify_image world "black.png" clip (map normalize cat_dog_outputs)
    (group_indices (snd (flatten_categories cat_dog))) 1
  = ([ImageOpen "black.png"; ImageFeatures "black.png"],
     Ret (Some "cat", Some nan, Some [("cat", nan); ("dog", nan)], None)) /\
  get_text_features clip (fst (flatten_categories with_blank))
  = inr [[0; 0]; [0; 1]]%float /\
  precompute_text_features clip with_blank
  = ([TextFeatures ["a blank page"; "a photo of a dog"]],
     Ret ([[nan; nan]; [0; 1]]%float, ["blank"; "dog"],
          [("blank", [0]); ("dog", [1])])).
Proof. vm_compute. repeat split. Qed.

(** The theorem of C3 on the zero-norm image [black.png]. *)
Lemma normalization_divides_whatever_the_norm_witness :
  norm [0; 0]%float = 0%float /\
  exists text_features category_indices best confidence scores,
    outcome (precompute_text_features clip cat_dog)
      = Ret (text_features, snd (flatten_categories cat_dog),
             category_indices) /\
    (forall i row, nth_error cat_dog_outputs i = Some row ->
       nth_error text_features i
         = Some (map (fun x => fdiv x (norm row)) row)) /\
    similarities (map (fun x => fdiv x (norm [0; 0]%float)) [0; 0]%float)
      text_features
      = inr [nan; nan] /\
    outcome (classify_image world "black.png" clip text_features
               category_indices 1)
      = Ret (Some best, Some confidence, Some scores, None).
Proof.
  split; [reflexivity|].
  apply (@normalization_divides_whatever_the_norm float float_arith Picture
           world clip cat_dog "black.png" Black cat_dog_outputs
           [0; 0]%float [nan; nan] 1%Z).
  - nodup_strings.
  - discriminate.
  - reflexivity.
  - reflexivity.
  - reflexivity.
  - reflexivity.
  - vm_compute. reflexivity.
  - lia.
Defined.

(** C4 on the code: the decoder fails on [huge.png] with an exception whose
    message is empty; [classify_image] returns that message as its error, and
    [handle_classify] files the image under [results], with no category, and
    leaves [errors] empty. *)
Theorem empty_error_message_is_filed_as_result :
  image_open world "huge.png" = inl EmptyString /\
  returned (classify_image world "huge.png" clip
              (map normalize cat_dog_outputs)
              (group_indices (snd (flatten_categories cat_dog))) 1)
    = (None, None, None, Some EmptyString) /\
  output (trace (handle_classify world
                   (classify_request None cat_dog 1 ["huge.png"])))
    = [Status "Loading model on cpu...";
       Status "Precomputing text features...";
       Progress 1 1;
       ClassifyResponse "cpu"
         [{| r_path := "huge.png"; r_category := None;
             r_confidence := None; r_scores := None |}]
         []].
Proof. vm_compute. repeat split. Qed.

(** C5 on the code: the text tower raises while the index is built; the run
    ends with that exception uncaught, and what was written before it is the
    two status lines: no error response. *)
Theorem index_failure_is_an_uncaught_exception :
  handle_classify world
    (classify_request (Some "broken/text-tower") cat_dog 1 ["cat.png"])
  = ([Out (Status "Loading model on cpu...");
      LoadModel "broken/text-tower" "cpu";
      Out (Status "Precomputing text features...");
      TextFeatures ["a photo of a cat"; "a photo of a dog"]],
     Raise "CUDA error: out of memory") /\
  output (trace (handle_classify world
                   (classify_request (Some "broken/text-tower") cat_dog 1
                      ["cat.png"])))
    = [Status "Loading model on cpu...";
       Status "Precomputing text features..."].
Proof. vm_compute. repeat split. Qed.

(** C6 on the code: of three images the second and the third fail to decode;
    the third is listed in [errors], the second, whose error message is
    empty, is listed in [results] after the first. *)
Theorem failed_image_is_listed_in_results :
  let request :=
    classify_request None cat_dog 1 ["cat.png"; "huge.png"; "missing.png"] in
  let classify p :=
    returned (classify_image world p clip (map normalize cat_dog_outputs)
                (group_indices (snd (flatten_categories cat_dog))) 1) in
  map (fun p => succeeded (classify p))
    ["cat.png"; "huge.png"; "missing.png"] = [true; false; false] /\
  exists results errors,
    last (output (trace (handle_classify world request))) (Progress 0 0)
      = ClassifyResponse "cpu" results errors /\
    map (fun r => r_path r) results = ["cat.png"; "huge.png"] /\
    map (fun e => e_path e) errors = ["missing.png"].
Proof. vm_compute. split; [reflexivity|]. eexists _, _. repeat split. Qed.

(** The theorem of C7 on a request with two images, the second of which
    cannot be decoded, and on a request without images. *)
Lemma progress_precedes_each_image_witness :
  progress_messages
    (trace (handle_classify world
              (classify_request None cat_dog 1 ["cat.png"; "missing.png"])))
    = [(1, 2); (2, 2)] /\
  handle_classify world (classify_request None cat_dog 1 [])
    = ([Out (Status "Loading model on cpu...");
        LoadModel "openai/clip-vit-large-patch14" "cpu";
        Out (Status "Precomputing text features...");
        TextFeatures ["a photo of a cat"; "a photo of a dog"];
        Out (ClassifyResponse "cpu" [] [])],
       Ret tt).
Proof.
  split.
  - assert (Hload : from_pretrained world
                      (model_name_of
                         (classify_request None cat_dog 1
                            ["cat.png"; "missing.png"]))
                      (get_device world) = inr clip) by reflexivity.
    assert (Htext : get_text_features clip
                      (fst (flatten_categories
                              (categories_of
                                 (classify_request None cat_dog 1
                                    ["cat.png"; "missing.png"]))))
                    = inr cat_dog_outputs) by reflexivity.
    exact (proj1 (proj2 (proj2
             (progress_precedes_each_image world _ Hload Htext)))).
  - assert (Hload : from_pretrained world
                      (model_name_of (classify_request None cat_dog 1 []))
                      (get_device world) = inr clip) by reflexivity.
    assert (Htext : get_text_features clip
                      (fst (flatten_categories
                              (categories_of
                                 (classify_request None cat_dog 1 []))))
                    = inr cat_dog_outputs) by reflexivity.
    exact (proj2 (proj2 (proj2
             (progress_precedes_each_image world _ Hload Htext)))
             eq_refl).
Defined.

(** The theorem of C8 on an input that is not JSON and on a request with the
    command [resize]. *)
Lemma rejected_input_is_fatal_witness :
  main world input_truncated
    = ([Out (ErrorResponse
               "Invalid JSON input: Expecting property name enclosed in double quotes: line 1 column 2 (char 1)")],
       SysExit 1%Z) /\
  main world input_resize
    = ([Out (ErrorResponse "Unknown command: resize")], SysExit 1%Z).
Proof.
  split.
  - apply (@rejected_input_is_fatal float float_arith Picture world
             input_truncated).
    apply (@RejectedMalformed float Picture world input_truncated
             "Expecting property name enclosed in double quotes: line 1 column 2 (char 1)").
    reflexivity.
  - apply (@rejected_input_is_fatal float float_arith Picture world
             input_resize).
    apply (@RejectedUnknown float Picture world input_resize
             {| req_command := Some (CmdStr "resize");
                req_config := None; req_images := None |}
             (CmdStr "resize")).
    + reflexivity.
    + reflexivity.
    + discriminate.
    + discriminate.
Defined.

(** C9 fails on the code: the category [unicorn] has no prompt, and the
    request is not rejected; its image is classified among the other two
    categories. *)
Lemma empty_prompt_category_is_not_rejected :
  Dict.get "unicorn" with_empty = Some [] /\
  handle_classify world (classify_request None with_empty 1 ["cat.png"])
  = ([Out (Status "Loading model on cpu...");
      LoadModel "openai/clip-vit-large-patch14" "cpu";
      Out (Status "Precomputing text features...");
      TextFeatures ["a photo of a cat"; "a photo of a dog"];
      Out (Progress 1 1); ImageOpen "cat.png"; ImageFeatures "cat.png";
      Out (ClassifyResponse "cpu"
             [{| r_path := "cat.png"; r_category := Some "cat";
                 r_confidence := Some 1%float;
                 r_scores := Some [("cat", 1%float); ("dog", 0%float)] |}]
             [])],
     Ret tt).
Proof. vm_compute. repeat split. Qed.

(** The theorem of C9 on that request. *)
Lemma empty_prompt_category_is_dropped_witness :
  handle_classify world (classify_request None with_empty 1 ["cat.png"])
    = handle_classify world (classify_request None cat_dog 1 ["cat.png"]) /\
  Dict.get "unicorn" (group_indices (snd (flatten_categories with_empty)))
    = None /\
  forall model : Model (F:=float) (Image:=Picture),
    precompute_text_features model with_empty
    = precompute_text_features model cat_dog.
Proof.
  apply (@empty_prompt_category_is_dropped float float_arith Picture world
           (classify_request None with_empty 1 ["cat.png"]) "unicorn").
  - nodup_strings.
  - simpl. auto.
Defined.

(** The theorem of C10 on a request object that has only the key
    [images]. *)
Lemma missing_command_means_classify_witness :
  main world input_no_command
    = handle_classify world
        {| req_command := None; req_config := None;
           req_images := Some ["cat.png"] |} /\
  hd_error (trace (main world input_no_command))
    = Some (Out (Status "Loading model on cpu...")).
Proof.
  assert (Hparse : json_loads world input_no_command
                   = Document {| req_command := None; req_config := None;
                                 req_images := Some ["cat.png"] |})
    by reflexivity.
  destruct (@missing_command_means_classify float float_arith Picture world
              input_no_command _ Hparse eq_refl) as [H1 [_ [H2 _]]].
  split; [exact H1|exact H2].
Defined.

(** * Further properties of the worker *)

(** ** Dictionary assignment and lookup *)

Module DictLaws.

Lemma get_set_same {V} (k : string) (v : V) (d : Dict.t V) :
  Dict.get k (Dict.set k v d) = Some v.
Proof.
  induction d as [|[k' v'] d IH]; simpl.
  - now rewrite String.eqb_refl.
  - destruct (String.eqb k k') eqn:E; simpl; rewrite E; auto.
Qed.

Lemma get_set_other {V} (k k' : string) (v : V) (d : Dict.t V) :
  k' <> k -> Dict.get k' (Dict.set k v d) = Dict.get k' d.
Proof.
  intros Hne. induction d as [|[k0 v0] d IH]; simpl.
  - destruct (String.eqb_spec k' k); [contradiction|reflexivity].
  - destruct (String.eqb_spec k k0) as [->|Hk]; simpl.
    + destruct (String.eqb_spec k' k0); [contradiction|reflexivity].
    + now rewrite IH.
Qed.

Lemma keys_set {V} (k : string) (v : V) (d : Dict.t V) :
  Dict.keys (Dict.set k v d)
  = if in_dec string_dec k (Dict.keys d) then Dict.keys d
    else Dict.keys d ++ [k].
Proof.
  induction d as [|[k0 v0] d IH]; simpl; [reflexivity|].
  destruct (String.eqb_spec k k0) as [->|Hk]; simpl.
  - destruct (string_dec k0 k0); [reflexivity|contradiction].
  - rewrite IH. destruct (string_dec k0 k); [congruence|].
    destruct (in_dec string_dec k (Dict.keys d)); reflexivity.
Qed.

Lemma NoDup_keys_set {V} (k : string) (v : V) (d : Dict.t V) :
  NoDup (Dict.keys d) -> NoDup (Dict.keys (Dict.set k v d)).
Proof.
  intros Hnd. rewrite keys_set.
  destruct (in_dec string_dec k (Dict.keys d)) as [Hin|Hnot]; [exact Hnd|].
  apply NoDup_app; [exact Hnd|repeat constructor; tauto|].
  intros x Hx [<-|[]]. contradiction.
Qed.

Lemma get_append_same {V} (k : string) (x : V) (d : Dict.t (list V)) :
  Dict.get k (Dict.append k x d)
  = Some (match Dict.get k d with Some l => l | None => [] end ++ [x]).
Proof.
  unfold Dict.append. destruct (Dict.get k d); apply get_set_same.
Qed.

Lemma get_append_other {V} (k k' : string) (x : V) (d : Dict.t (list V)) :
  k' <> k -> Dict.get k' (Dict.append k x d) = Dict.get k' d.
Proof.
  intros Hne. unfold Dict.append.
  destruct (Dict.get k d); now apply get_set_other.
Qed.

Lemma NoDup_keys_append {V} (k : string) (x : V) (d : Dict.t (list V)) :
  NoDup (Dict.keys d) -> NoDup (Dict.keys (Dict.append k x d)).
Proof.
  intros Hnd. unfold Dict.append.
  destruct (Dict.get k d); now apply NoDup_keys_set.
Qed.

End DictLaws.

(** ** The grouping loop on any list of labels *)

Section Grouping.

Lemma positions_in (c : string) (labels : list string) (offset i : nat) :
  In i (positions c offset labels) <->
  offset <= i /\ nth_error labels (i - offset) = Some c.
Proof.
  revert offset. induction labels as [|x xs IH]; intros offset; simpl.
  - split; [tauto|]. intros [_ H]. destruct (i - offset); discriminate.
  - assert (Hstep : In i (positions c (S offset) xs) <->
                    offset < i /\ nth_error (x :: xs) (i - offset) = Some c).
    { rewrite IH. split.
      - intros [Hle Hn]. split; [lia|].
        replace (i - offset) with (S (i - S offset)) by lia. exact Hn.
      - intros [Hlt Hn]. split; [lia|].
        replace (i - offset) with (S (i - S offset)) in Hn by lia.
        exact Hn. }
    destruct (String.eqb_spec x c) as [->|Hne].
    + simpl. rewrite Hstep. split.
      * intros [<-|[Hlt Hn]]; [|split; [lia|exact Hn]].
        split; [lia|]. now rewrite Nat.sub_diag.
      * intros [Hle Hn]. destruct (Nat.eq_dec offset i) as [->|Hd];
          [now left|right]. split; [lia|exact Hn].
    + rewrite Hstep. split.
      * intros [Hlt Hn]. split; [lia|exact Hn].
      * intros [Hle Hn]. split; [|exact Hn].
        destruct (Nat.eq_dec offset i) as [->|Hd]; [|lia].
        rewrite Nat.sub_diag in Hn. simpl in Hn. congruence.
Qed.

Lemma positions_NoDup (c : string) (labels : list string) (offset : nat) :
  NoDup (positions c offset labels).
Proof.
  revert offset. induction labels as [|x xs IH]; intros offset; simpl.
  - constructor.
  - destruct (String.eqb x c); [|apply IH].
    constructor; [|apply IH].
    intros Hin. apply positions_in in Hin. lia.
Qed.

Lemma group_from_cons (x : string) (xs : list string) (offset : nat)
  (d : Dict.t (list nat)) :
  group_from offset (x :: xs) d
  = group_from (S offset) xs (Dict.append x offset d).
Proof. reflexivity. Qed.

Lemma group_from_get (c : string) (labels : list string) (offset : nat)
  (d : Dict.t (list nat)) :
  Dict.get c (group_from offset labels d)
  = match Dict.get c d, positions c offset labels with
    | Some l, p => Some (l ++ p)
    | None, [] => None
    | None, p => Some p
    end.
Proof.
  revert offset d. induction labels as [|x xs IH]; intros offset d.
  - unfold group_from. simpl.
    destruct (Dict.get c d); [now rewrite app_nil_r|reflexivity].
  - rewrite group_from_cons, IH. cbn [positions].
    destruct (String.eqb_spec x c) as [->|Hne].
    + rewrite DictLaws.get_append_same.
      destruct (Dict.get c d) as [l|].
      * now rewrite <- app_assoc.
      * reflexivity.
    + rewrite DictLaws.get_append_other by congruence. reflexivity.
Qed.

Lemma group_from_NoDup (labels : list string) (offset : nat)
  (d : Dict.t (list nat)) :
  NoDup (Dict.keys d) -> NoDup (Dict.keys (group_from offset labels d)).
Proof.
  revert offset d. induction labels as [|x xs IH]; intros offset d Hnd.
  - exact Hnd.
  - rewrite group_from_cons. apply IH. now apply DictLaws.NoDup_keys_append.
Qed.

(** X1.  Whatever the labels, the grouping loop files every row under its
    own label and nowhere else: the keys of the grouping are distinct, row [i]
    is in the list of [c] exactly when its label is [c], and a list of the
    grouping is never empty and names no row twice. *)
Theorem grouping_files_each_row_under_its_label (labels : list string)
  (c : string) :
  NoDup (Dict.keys (group_indices labels)) /\
  (forall i,
     nth_error labels i = Some c <->
     exists l, Dict.get c (group_indices labels) = Some l /\ In i l) /\
  (forall l, Dict.get c (group_indices labels) = Some l ->
     l <> [] /\ NoDup l /\ l = positions c 0 labels).
Proof.
  assert (Hget : Dict.get c (group_indices labels)
                 = match positions c 0 labels with
                   | [] => None
                   | p => Some p
                   end).
  { unfold group_indices, enumerate.
    change (Dict.get c (group_from 0 labels [])
            = match positions c 0 labels with [] => None | p => Some p end).
    rewrite group_from_get. reflexivity. }
  split; [|split].
  - unfold group_indices, enumerate.
    apply (@group_from_NoDup labels 0 []). constructor.
  - intros i. rewrite Hget. split.
    + intros Hi. exists (positions c 0 labels).
      assert (Hin : In i (positions c 0 labels)).
      { apply positions_in. rewrite Nat.sub_0_r. split; [lia|exact Hi]. }
      split; [|exact Hin].
      destruct (positions c 0 labels); [destruct Hin|reflexivity].
    + intros [l [Hl Hin]].
      assert (Hp : l = positions c 0 labels).
      { destruct (positions c 0 labels); [discriminate|congruence]. }
      subst l. apply positions_in in Hin. rewrite Nat.sub_0_r in Hin.
      tauto.
  - intros l Hl. rewrite Hget in Hl.
    destruct (positions c 0 labels) as [|p ps] eqn:Hp; [discriminate|].
    injection Hl as <-. split; [discriminate|]. split; [|reflexivity].
    rewrite <- Hp. apply positions_NoDup.
Qed.

(** X2.  The two lists built by the flattening loops: the prompts of all
    categories concatenated in declaration order, and beside each prompt the
    name of its category.  They have the same length, and the label at a row
    is a category that declares the prompt at that row. *)
Theorem flattening_labels_each_prompt (categories : Dict.t (list string)) :
  fst (flatten_categories categories) = flat_map snd categories /\
  length (snd (flatten_categories categories))
    = length (fst (flatten_categories categories)) /\
  (forall i prompt,
     nth_error (fst (flatten_categories categories)) i = Some prompt ->
     exists c prompts,
       nth_error (snd (flatten_categories categories)) i = Some c /\
       In (c, prompts) categories /\ In prompt prompts).
Proof.
  rewrite flatten_categories_spec. cbn [fst snd].
  split; [reflexivity|]. split.
  - induction categories as [|[c ps] cs IH]; simpl; [reflexivity|].
    now rewrite !length_app, repeat_length, IH.
  - induction categories as [|[c ps] cs IH]; intros i prompt; simpl.
    + destruct i; discriminate.
    + intros Hn. destruct (Nat.lt_ge_cases i (length ps)) as [Hlt|Hge].
      * rewrite nth_error_app1 in Hn by exact Hlt.
        exists c, ps. split; [|split].
        -- rewrite nth_error_app1 by (now rewrite repeat_length).
           now apply nth_error_repeat.
        -- now left.
        -- now apply nth_error_In in Hn.
      * rewrite nth_error_app2 in Hn by exact Hge.
        destruct (IH _ _ Hn) as [c' [ps' [H1 [H2 H3]]]].
        exists c', ps'. split; [|split; [now right|exact H3]].
        rewrite nth_error_app2; rewrite repeat_length; [exact H1|exact Hge].
Qed.

End Grouping.

(** ** One image *)

Section Coverage.

Context {F : Type} {AF : Arith F} {Image : Type}.
Variable w : World (F:=F) (Image:=Image).

Lemma classify_image_trace (image_path : string) (model : Model)
  (text_features : list (list F)) (category_indices : Dict.t (list nat))
  (top_k : Z) :
  trace (classify_image w image_path model text_features category_indices
           top_k)
  = ImageOpen image_path
      :: (if decodes w image_path then [ImageFeatures image_path] else []).
Proof.
  unfold classify_image, decodes.
  destruct (image_open w image_path) as [e|image]; simpl; [reflexivity|].
  destruct (get_image_features model image) as [e|v]; simpl; [reflexivity|].
  destruct (similarities (normalize v) text_features) as [e|sims]; simpl;
    [reflexivity|].
  pose proof (score_categories_silent sims category_indices top_k [])
    as Hsil.
  destruct (score_categories sims category_indices top_k [])
    as [t [scores|e|c]]; simpl in Hsil; subst t; simpl; try reflexivity.
  destruct (py_max scores); reflexivity.
Qed.

Lemma max_item_in (rest : list (string * F)) (best : string * F) :
  In (max_item best rest) (best :: rest).
Proof.
  revert best. induction rest as [|item rest IH]; intros best; simpl.
  - now left.
  - destruct (fgt (snd item) (snd best)).
    + right. apply IH.
    + destruct (IH best) as [H|H]; [now left|right; now right].
Qed.

(** X3.  [classify_image] never lets an exception out, and what it returns
    has one of two shapes.  Either all of category, confidence and scores are
    present and the error is absent, and then the category and its confidence
    are an entry of the scores; or the three are absent and the error is
    present.  When the decoder raises, the error is the decoder's message
    and the image tower is not called; when the image tower raises, the error
    is its message. *)
Theorem classify_image_returns_success_or_error (image_path : string)
  (model : Model) (text_features : list (list F))
  (category_indices : Dict.t (list nat)) (top_k : Z) :
  let run := classify_image w image_path model text_features
               category_indices top_k in
  outcome run = Ret (returned run) /\
  ((exists best confidence scores,
       returned run = (Some best, Some confidence, Some scores, None) /\
       In (best, confidence) scores) \/
   (exists e, returned run = (None, None, None, Some e))) /\
  (forall e, image_open w image_path = inl e ->
     run = ([ImageOpen image_path], Ret (None, None, None, Some e))) /\
  (forall image e, image_open w image_path = inr image ->
     get_image_features model image = inl e ->
     run = ([ImageOpen image_path; ImageFeatures image_path],
            Ret (None, None, None, Some e))).
Proof.
  intros run. split; [|split; [|split]].
  - unfold run. rewrite classify_image_returns at 1. reflexivity.
  - unfold run, returned, classify_image.
    destruct (image_open w image_path) as [e|image]; simpl; [eauto|].
    destruct (get_image_features model image) as [e|v]; simpl; [eauto|].
    destruct (similarities (normalize v) text_features) as [e|sims]; simpl;
      [eauto|].
    destruct (score_categories sims category_indices top_k [])
      as [t [scores|e|c]] eqn:Hsc; simpl; [|eauto|].
    + destruct scores as [|first rest]; simpl; [eauto|].
      left. exists (fst (max_item first rest)), (snd (max_item first rest)),
        (first :: rest).
      split; [reflexivity|].
      rewrite <- surjective_pairing. apply max_item_in.
    + exfalso.
      apply (@score_categories_no_exit _ _ sims category_indices top_k [] c).
      now rewrite Hsc.
  - intros e He. unfold run. now apply classify_image_decode_failure.
  - intros image e Ho He. unfold run.
    now apply (classify_image_inference_failure w image_path model
                 text_features category_indices top_k Ho He).
Qed.

Lemma score_categories_negative (sims : list F) (c : string)
  (idxs : list nat) (rest : list (string * list nat)) (top_k : Z)
  (acc : Scores) :
  (top_k < 0)%Z ->
  exists e,
    score_categories sims ((c, idxs) :: rest) top_k acc = ([], Raise e).
Proof.
  intros Hk. simpl. destruct (gather sims idxs) as [e|g]; [now exists e|].
  rewrite bind_inr. unfold topk.
  destruct (Z.ltb_spec (Z.min top_k (Z.of_nat (length idxs))) 0); [|lia].
  eexists. reflexivity.
Qed.

(** X4.  With a negative [top_k] no image is ever classified: whatever the
    image, the model and the index, [classify_image] returns an error. *)
Theorem negative_top_k_never_classifies (image_path : string)
  (model : Model) (text_features : list (list F))
  (category_indices : Dict.t (list nat)) (top_k : Z) :
  (top_k < 0)%Z ->
  succeeded (returned (classify_image w image_path model text_features
                         category_indices top_k)) = false.
Proof.
  intros Hk. unfold returned, classify_image.
  destruct (image_open w image_path) as [e|image]; simpl; [reflexivity|].
  destruct (get_image_features model image) as [e|v]; simpl; [reflexivity|].
  destruct (similarities (normalize v) text_features) as [e|sims]; simpl;
    [reflexivity|].
  destruct category_indices as [|[c idxs] rest].
  - reflexivity.
  - destruct (@score_categories_negative sims c idxs rest top_k [] Hk) as [e He].
    rewrite He. reflexivity.
Qed.

(** X5.  Against an index without any row group (no category has a prompt)
    no image is ever classified: [max] has nothing to choose from, and
    [classify_image] returns an error, after the image was decoded and, if
    that went well, embedded all the same. *)
Theorem empty_index_never_classifies (image_path : string) (model : Model)
  (text_features : list (list F)) (top_k : Z) :
  succeeded (returned (classify_image w image_path model text_features []
                         top_k)) = false /\
  trace (classify_image w image_path model text_features [] top_k)
  = ImageOpen image_path
      :: (if decodes w image_path then [ImageFeatures image_path] else []).
Proof.
  split; [|apply classify_image_trace].
  unfold returned, classify_image.
  destruct (image_open w image_path) as [e|image]; simpl; [reflexivity|].
  destruct (get_image_features model image) as [e|v]; simpl;
    [reflexivity|].
  destruct (similarities (normalize v) text_features) as [e|sims]; simpl;
    reflexivity.
Qed.

Lemma score_categories_clipped (sims : list F)
  (items : list (string * list nat)) (k1 k2 : Z) (acc : Scores) :
  (forall c idxs, In (c, idxs) items ->
     (Z.of_nat (length idxs) <= k1)%Z /\ (Z.of_nat (length idxs) <= k2)%Z) ->
  score_categories sims items k1 acc = score_categories sims items k2 acc.
Proof.
  revert acc. induction items as [|[c idxs] items IH]; intros acc Hlen;
    simpl; [reflexivity|].
  destruct (Hlen c idxs (or_introl eq_refl)) as [H1 H2].
  rewrite (Z.min_r k1), (Z.min_r k2) by assumption.
  destruct (gather sims idxs) as [e|g]; [reflexivity|]. rewrite !bind_inr.
  destruct (topk g _) as [e|top]; [reflexivity|]. rewrite !bind_inr.
  apply IH. intros c' idxs' Hin. apply (Hlen c'). now right.
Qed.

(** X6.  Two values of [top_k] that are both at least the number of prompts
    of every category give the same run of [classify_image]: same prediction,
    same confidence, same scores, same error. *)
Theorem top_k_beyond_every_category_is_clipped (image_path : string)
  (model : Model) (text_features : list (list F))
  (category_indices : Dict.t (list nat)) (k1 k2 : Z) :
  (forall c idxs, In (c, idxs) category_indices ->
     (Z.of_nat (length idxs) <= k1)%Z /\ (Z.of_nat (length idxs) <= k2)%Z) ->
  classify_image w image_path model text_features category_indices k1
  = classify_image w image_path model text_features category_indices k2.
Proof.
  intros Hlen. unfold classify_image.
  destruct (image_open w image_path) as [e|image]; simpl; [reflexivity|].
  destruct (get_image_features model image) as [e|v]; simpl; [reflexivity|].
  destruct (similarities (normalize v) text_features) as [e|sims]; simpl;
    [reflexivity|].
  now rewrite (@score_categories_clipped sims category_indices k1 k2 [] Hlen).
Qed.

(** ** Whole runs *)

Lemma main_classify (input_data : string) (request : Request) :
  json_loads w input_data = Document request ->
  asks_classify request ->
  main w input_data = handle_classify w request.
Proof.
  intros Hparse [Hc|Hc]; unfold main; rewrite Hparse, Hc; reflexivity.
Qed.

Lemma output_app (t1 t2 : list (Event (F:=F))) :
  output (t1 ++ t2) = output t1 ++ output t2.
Proof.
  induction t1 as [|ev t1 IH]; simpl; [reflexivity|].
  destruct ev; simpl; now rewrite IH.
Qed.

Lemma opened_app (t1 t2 : list (Event (F:=F))) :
  opened (t1 ++ t2) = opened t1 ++ opened t2.
Proof.
  induction t1 as [|ev t1 IH]; simpl; [reflexivity|].
  destruct ev; simpl; now rewrite IH.
Qed.

Lemma embedded_app (t1 t2 : list (Event (F:=F))) :
  embedded (t1 ++ t2) = embedded t1 ++ embedded t2.
Proof.
  induction t1 as [|ev t1 IH]; simpl; [reflexivity|].
  destruct ev; simpl; now rewrite IH.
Qed.

Lemma model_loads_app (t1 t2 : list (Event (F:=F))) :
  model_loads (t1 ++ t2) = model_loads t1 ++ model_loads t2.
Proof.
  induction t1 as [|ev t1 IH]; simpl; [reflexivity|].
  destruct ev; simpl; now rewrite IH.
Qed.

Lemma text_calls_app (t1 t2 : list (Event (F:=F))) :
  text_calls (t1 ++ t2) = text_calls t1 ++ text_calls t2.
Proof.
  induction t1 as [|ev t1 IH]; simpl; [reflexivity|].
  destruct ev; simpl; now rewrite IH.
Qed.

(** What the turns of the loop amount to, seen through each projection of
    the trace. *)
Lemma turns_projections (model : Model) (text_features : list (list F))
  (category_indices : Dict.t (list nat)) (top_k : Z) (total : nat)
  (images : list string) (idx : nat) :
  let turns :=
    flat_map (turn w model text_features category_indices top_k total)
      (combine (seq idx (length images)) images) in
  output turns
    = map (fun i => Progress i total) (seq (idx + 1) (length images)) /\
  opened turns = images /\
  embedded turns = filter (decodes w) images /\
  model_loads turns = [] /\
  text_calls turns = [].
Proof.
  revert idx. induction images as [|p images IH]; intros idx;
    cbn [length seq combine flat_map map filter]; [repeat split|].
  destruct (IH (S idx)) as [H1 [H2 [H3 [H4 H5]]]].
  unfold turn at 1 3 5 7 9. cbn [fst snd]. rewrite classify_image_trace.
  cbn [app output opened embedded model_loads text_calls].
  rewrite output_app, opened_app, embedded_app, model_loads_app,
    text_calls_app, H1, H2, H3, H4, H5.
  replace (S idx + 1) with (S (idx + 1)) by lia.
  destruct (decodes w p); repeat split.
Qed.

(** X7.  What a classify run writes, in every case.  First the loading
    status.  If the model does not load: the error response, and nothing
    more.  Otherwise the second status; if the text tower raises, nothing
    more; otherwise the progress messages [(1, total)], ..., [(total, total)]
    and last the one success response. *)
Theorem classify_output_protocol (request : Request) :
  let total := length (images_of request) in
  exists results errors,
    output (trace (handle_classify w request))
    = Status ("Loading model on " ++ get_device w ++ "...")%string
        :: match from_pretrained w (model_name_of request) (get_device w)
           with
           | inl e => [ErrorResponse ("Failed to load model: " ++ e)%string]
           | inr model =>
               Status "Precomputing text features..."
                 :: match get_text_features model
                            (fst (flatten_categories
                                    (categories_of request)))
                    with
                    | inl _ => []
                    | inr _ =>
                        map (fun i => Progress i total) (seq 1 total)
                          ++ [ClassifyResponse (get_device w) results
                                errors]
                    end
           end.
Proof.
  intros total.
  destruct (from_pretrained w (model_name_of request) (get_device w))
    as [e|model] eqn:Hload.
  - exists [], []. now rewrite (@handle_classify_load_failure _ _ _ w request _ Hload).
  - destruct (get_text_features model
                (fst (flatten_categories (categories_of request))))
      as [e|text_outputs] eqn:Htext.
    + exists [], [].
      now rewrite (@handle_classify_index_failure _ _ _ w request _ _ Hload Htext).
    + rewrite (@handle_classify_run _ _ _ w request _ _ Hload Htext).
      eexists _, _. cbn [trace fst]. rewrite !output_app. unfold enumerate.
      destruct (turns_projections model (map normalize text_outputs)
                  (group_indices
                     (snd (flatten_categories (categories_of request))))
                  (top_k_of request) (length (images_of request))
                  (images_of request) 0)
        as [Hout _].
      rewrite Hout. reflexivity.
Qed.

(** X8.  The collaborator calls of a classify run.  The model is loaded
    exactly once, with the requested name on the selected device.  If it
    loads, the text tower is called exactly once, with all prompts of all
    categories in declaration order; otherwise not at all.  If the index is
    built, every image is handed to the decoder exactly once, in input
    order, and the image tower is called for exactly the images that decode,
    in input order; otherwise no image is touched. *)
Theorem classify_calls (request : Request) :
  let t := trace (handle_classify w request) in
  let prompts := fst (flatten_categories (categories_of request)) in
  model_loads t = [(model_name_of request, get_device w)] /\
  match from_pretrained w (model_name_of request) (get_device w) with
  | inl _ => text_calls t = [] /\ opened t = [] /\ embedded t = []
  | inr model =>
      text_calls t = [prompts] /\
      match get_text_features model prompts with
      | inl _ => opened t = [] /\ embedded t = []
      | inr _ =>
          opened t = images_of request /\
          embedded t = filter (decodes w) (images_of request)
      end
  end.
Proof.
  intros t prompts. unfold t, prompts.
  destruct (from_pretrained w (model_name_of request) (get_device w))
    as [e|model] eqn:Hload.
  - rewrite (@handle_classify_load_failure _ _ _ w request _ Hload). repeat split.
  - destruct (get_text_features model
                (fst (flatten_categories (categories_of request))))
      as [e|text_outputs] eqn:Htext.
    + rewrite (@handle_classify_index_failure _ _ _ w request _ _ Hload Htext).
      repeat split.
    + rewrite (@handle_classify_run _ _ _ w request _ _ Hload Htext). cbn [trace fst].
      destruct (turns_projections model (map normalize text_outputs)
                  (group_indices
                     (snd (flatten_categories (categories_of request))))
                  (top_k_of request) (length (images_of request))
                  (images_of request) 0)
        as [_ [Ho [He [Hm Ht]]]].
      unfold enumerate.
      rewrite !model_loads_app, !text_calls_app, !opened_app, !embedded_app,
        Ho, He, Hm, Ht.
      cbn [model_loads text_calls opened embedded app].
      now rewrite !app_nil_r.
Qed.

(** X9.  The exit status of a classify request.  It is 1 exactly when the
    model loads and the text tower then raises, and 0 in every other case:
    when the model fails to load, and when the batch runs, however many
    images fail. *)
Theorem classify_exit_status (input_data : string) (request : Request) :
  json_loads w input_data = Document request ->
  asks_classify request ->
  (exit_code (main w input_data) = 1%Z <->
   exists model e,
     from_pretrained w (model_name_of request) (get_device w) = inr model /\
     get_text_features model
       (fst (flatten_categories (categories_of request))) = inl e) /\
  (exit_code (main w input_data) <> 1%Z ->
   exit_code (main w input_data) = 0%Z).
Proof.
  intros Hparse Hask. rewrite (@main_classify input_data request Hparse Hask).
  destruct (from_pretrained w (model_name_of request) (get_device w))
    as [e|model] eqn:Hload.
  - rewrite (@handle_classify_load_failure _ _ _ w request _ Hload).
    cbn [exit_code outcome snd]. split; [|reflexivity].
    split; [discriminate|]. intros [m [e' [H _]]]. discriminate.
  - destruct (get_text_features model
                (fst (flatten_categories (categories_of request))))
      as [e|text_outputs] eqn:Htext.
    + rewrite (@handle_classify_index_failure _ _ _ w request _ _ Hload Htext).
      cbn [exit_code outcome snd]. split; [|congruence].
      split; [|reflexivity]. intros _. exists model, e. auto.
    + rewrite (@handle_classify_run _ _ _ w request _ _ Hload Htext).
      cbn [exit_code outcome snd]. split; [|reflexivity].
      split; [discriminate|]. intros [m [e' [H1 H2]]].
      injection H1 as <-. congruence.
Qed.

(** X10.  A model that fails to load is reported: the run is the loading
    status, the load attempt and an error response carrying the loader's
    message; no prompt is embedded, no image is touched, and the process
    ends with status 0. *)
Theorem model_load_failure_is_reported (input_data : string)
  (request : Request) (e : string) :
  json_loads w input_data = Document request ->
  asks_classify request ->
  from_pretrained w (model_name_of request) (get_device w) = inl e ->
  main w input_data
  = ([Out (Status ("Loading model on " ++ get_device w ++ "...")%string);
      LoadModel (model_name_of request) (get_device w);
      Out (ErrorResponse ("Failed to load model: " ++ e)%string)],
     Ret tt) /\
  exit_code (main w input_data) = 0%Z.
Proof.
  intros Hparse Hask Hload. rewrite (@main_classify input_data request Hparse Hask).
  rewrite (@handle_classify_load_failure _ _ _ w request _ Hload). split; reflexivity.
Qed.

Lemma filter_split_length {A} (f : A -> bool) (l : list A) :
  length (filter (fun x => negb (f x)) l) + length (filter f l) = length l.
Proof.
  induction l as [|x l IH]; [reflexivity|].
  cbn [filter length]. destruct (f x); cbn [negb length]; lia.
Qed.

(** X11.  The images of a batch are split between the two lists of the final
    response without loss and in input order: [results] holds, in order, the
    images for which [classify_image] returned no error or an empty one,
    each with what [classify_image] returned for that image alone; [errors]
    holds, in order, the others, each with its path and the exact error
    message, which is never empty; so the two lists together have one entry
    per image. *)
Theorem batch_is_split_in_input_order (request : Request) (model : Model)
  (text_outputs : list (list F)) :
  from_pretrained w (model_name_of request) (get_device w) = inr model ->
  get_text_features model (fst (flatten_categories (categories_of request)))
    = inr text_outputs ->
  let cls p :=
    returned (classify_image w p model (map normalize text_outputs)
                (group_indices
                   (snd (flatten_categories (categories_of request))))
                (top_k_of request)) in
  let failed p := truthy (snd (cls p)) in
  exists results errors,
    last (trace (handle_classify w request)) (Out (Progress 0 0))
      = Out (ClassifyResponse (get_device w) results errors) /\
    results
      = map (fun p => result_entry p (cls p))
          (filter (fun p => negb (failed p)) (images_of request)) /\
    map (fun r => r_path r) results
      = filter (fun p => negb (failed p)) (images_of request) /\
    errors
      = map (fun p => {| e_path := p;
                         e_error := get_or (snd (cls p)) EmptyString |})
          (filter failed (images_of request)) /\
    length results + length errors = length (images_of request) /\
    (forall e, In e errors -> e_error e <> EmptyString).
Proof.
  intros Hload Htext cls failed.
  rewrite (@handle_classify_run _ _ _ w request _ _ Hload Htext).
  cbn [trace fst]. eexists _, _. split; [|split; [|split; [|split; [|split]]]].
  - rewrite app_assoc. apply last_last.
  - reflexivity.
  - rewrite map_map.
    induction (filter _ (images_of request)) as [|p l IH];
      [reflexivity|].
    cbn [map]. rewrite IH. f_equal. unfold result_entry.
    now destruct (returned _) as [[[? ?] ?] ?].
  - reflexivity.
  - rewrite !length_map. apply (filter_split_length failed).
  - intros e Hin. apply in_map_iff in Hin as [p [<- Hp]].
    apply filter_In in Hp as [_ Hp]. unfold error_entry. cbn [e_error].
    unfold truthy in Hp.
    destruct (snd (returned _)) as [s|]; [|discriminate].
    cbn [get_or]. intros Hs. rewrite Hs in Hp. discriminate Hp.
Qed.

(** X12.  A JSON document that is not an object gets no response at all:
    [request.get] raises, nothing is written, no collaborator is called, and
    the process ends with status 1. *)
Theorem non_object_document_is_an_uncaught_exception (input_data : string)
  (type_name : string) :
  json_loads w input_data = NotAnObject type_name ->
  trace (main w input_data) = [] /\
  (exists e, outcome (main w input_data) = Raise e) /\
  exit_code (main w input_data) = 1%Z.
Proof.
  intros Hparse. unfold main. rewrite Hparse. repeat split.
  eexists. reflexivity.
Qed.

(** X13.  The [check] command answers with one message and does no model
    work: whatever else the request holds, the run is the single check
    response, which names the device [get_device] selects and the three
    library versions; no collaborator is called and the status is 0. *)
Theorem check_loads_no_model (input_data : string) (request : Request) :
  json_loads w input_data = Document request ->
  req_command request = Some (CmdStr "check") ->
  main w input_data
  = ([Out (CheckResponse
             {| c_torch := true; c_transformers := true; c_pillow := true;
                c_device := get_device w;
                c_torch_version := torch_version w;
                c_transformers_version := transformers_version w;
                c_pillow_version := pil_version w |})],
     Ret tt) /\
  filter is_call (trace (main w input_data)) = [] /\
  exit_code (main w input_data) = 0%Z.
Proof.
  intros Hparse Hcmd. unfold main. rewrite Hparse, Hcmd. repeat split.
Qed.

(** X14.  The empty request.  A request object without any key is a
    classify request for the model [openai/clip-vit-large-patch14] with no
    category and no image: the default model is loaded on the selected
    device, the text tower is called with no prompt, and if both answer the
    run ends, without any progress message, with a success response whose
    results and errors are empty. *)
Theorem empty_request_runs_with_defaults (input_data : string)
  (model : Model) (text_outputs : list (list F)) :
  json_loads w input_data
    = Document {| req_command := None; req_config := None;
                  req_images := None |} ->
  from_pretrained w "openai/clip-vit-large-patch14" (get_device w)
    = inr model ->
  get_text_features model [] = inr text_outputs ->
  main w input_data
  = ([Out (Status ("Loading model on " ++ get_device w ++ "...")%string);
      LoadModel "openai/clip-vit-large-patch14" (get_device w);
      Out (Status "Precomputing text features...");
      TextFeatures [];
      Out (ClassifyResponse (get_device w) [] [])],
     Ret tt).
Proof.
  intros Hparse Hload Htext.
  rewrite (@main_classify input_data _ Hparse (or_introl eq_refl)).
  apply (@handle_classify_run _ _ _ w
           {| req_command := None; req_config := None; req_images := None |}
           model text_outputs Hload Htext).
Qed.

(** X15.  The device: [mps] whenever it is available, whatever else is;
    [cuda] exactly when [mps] is not available and [cuda] is; [cpu] exactly
    when neither is. *)
Theorem get_device_prefers_mps_then_cuda :
  (get_device w = "mps" <-> mps_is_available w = true) /\
  (get_device w = "cuda" <->
   mps_is_available w = false /\ cuda_is_available w = true) /\
  (get_device w = "cpu" <->
   mps_is_available w = false /\ cuda_is_available w = false).
Proof.
  unfold get_device.
  destruct (mps_is_available w), (cuda_is_available w);
    repeat split; intros; try discriminate; try tauto;
    match goal with H : _ /\ _ |- _ => destruct H; discriminate end.
Qed.

Lemma index_ranges_concat (categories : Dict.t (list string)) (base : nat) :
  concat (map snd (index_ranges base categories))
  = seq base (length (flat_map snd categories)).
Proof.
  revert base. induction categories as [|[c ps] cs IH]; intros base;
    cbn [index_ranges flat_map snd]; [reflexivity|].
  rewrite length_app, seq_app. destruct ps as [|p ps].
  - cbn [length seq app]. rewrite Nat.add_0_r. apply IH.
  - cbn [map snd concat]. now rewrite IH.
Qed.

(** X16.  The index built from a mapping with distinct category names, when
    the text tower answers: the text tower is called once; the index has one
    row per returned embedding, each of the dimension of its embedding; the
    grouping names the categories that have prompts, in declaration order;
    and its row lists, put end to end, are the rows [0, 1, ..., n - 1] in
    order, [n] being the number of prompts: every row belongs to exactly one
    category. *)
Theorem index_rows_are_partitioned (model : Model (F:=F) (Image:=Image))
  (categories : Dict.t (list string)) (text_outputs : list (list F)) :
  NoDup (Dict.keys categories) ->
  get_text_features model (fst (flatten_categories categories))
    = inr text_outputs ->
  exists text_features category_indices,
    precompute_text_features model categories
      = ([TextFeatures (fst (flatten_categories categories))],
         Ret (text_features, snd (flatten_categories categories),
              category_indices)) /\
    length text_features = length text_outputs /\
    (forall i row, nth_error text_outputs i = Some row ->
       exists unit_row,
         nth_error text_features i = Some unit_row /\
         length unit_row = length row) /\
    Dict.keys category_indices = Dict.keys (prompted categories) /\
    concat (map snd category_indices)
      = seq 0 (length (fst (flatten_categories categories))).
Proof.
  intros Hnd Htext.
  exists (map normalize text_outputs), (index_ranges 0 categories).
  split; [|split; [|split; [|split]]].
  - unfold precompute_text_features.
    rewrite (@group_indices_ranges categories Hnd), Htext. reflexivity.
  - apply length_map.
  - intros i row Hrow. exists (normalize row). split.
    + now rewrite nth_error_map, Hrow.
    + apply normalize_length.
  - apply keys_index_ranges.
  - rewrite flatten_categories_spec. cbn [fst]. apply index_ranges_concat.
Qed.

End Coverage.

(** ** Runs of the further properties *)

(** With [top_k = -1] the image [cat.png], which decodes and embeds, is not
    classified. *)
Lemma negative_top_k_never_classifies_witness :
  succeeded
    (returned (classify_image Example.world "cat.png" clip
                 (map normalize cat_dog_outputs)
                 (group_indices (snd (flatten_categories cat_dog))) (-1)))
  = false.
Proof.
  apply (@negative_top_k_never_classifies float float_arith Picture
           Example.world "cat.png" clip (map normalize cat_dog_outputs)
           (group_indices (snd (flatten_categories cat_dog))) (-1)%Z).
  lia.
Defined.

(** With two prompts for [cat] and one for [dog], [top_k = 2] and
    [top_k = 7] give the same run. *)
Lemma top_k_beyond_every_category_is_clipped_witness :
  classify_image Example.world "cat.png" clip
    (map normalize cat_kitten_dog_outputs) Sample.two_one 2
  = classify_image Example.world "cat.png" clip
      (map normalize cat_kitten_dog_outputs) Sample.two_one 7.
Proof.
  apply (@top_k_beyond_every_category_is_clipped float float_arith Picture
           Example.world "cat.png" clip
           (map normalize cat_kitten_dog_outputs) Sample.two_one 2%Z 7%Z).
  intros c idxs Hin. simpl in Hin.
  destruct Hin as [Hin|[Hin|[]]]; injection Hin as _ <-; simpl; lia.
Defined.

(** A request without [command] whose batch runs ends with status 0. *)
Lemma classify_exit_status_witness :
  exit_code (main Example.world input_no_command) = 0%Z.
Proof.
  assert (Hparse : json_loads Example.world input_no_command
                   = Document {| req_command := None; req_config := None;
                                 req_images := Some ["cat.png"] |})
    by reflexivity.
  assert (Hask : asks_classify
                   {| req_command := None; req_config := None;
                      req_images := Some ["cat.png"] |})
    by (left; reflexivity).
  apply (proj2 (@classify_exit_status float float_arith Picture
                  Example.world input_no_command _ Hparse Hask)).
  vm_compute. discriminate.
Defined.

(** A classify request for the model [nobody/nothing], which does not
    exist. *)
Lemma model_load_failure_is_reported_witness :
  main Sample.world Sample.input_unknown_model
  = ([Out (Status "Loading model on cuda...");
      LoadModel "nobody/nothing" "cuda";
      Out (ErrorResponse
             "Failed to load model: nobody/nothing is not a valid model identifier")],
     Ret tt) /\
  exit_code (main Sample.world Sample.input_unknown_model) = 0%Z.
Proof.
  apply (@model_load_failure_is_reported float float_arith Picture
           Sample.world Sample.input_unknown_model
           Sample.unknown_model_request
           "nobody/nothing is not a valid model identifier").
  - reflexivity.
  - left. reflexivity.
  - reflexivity.
Defined.

(** Three images, of which the third does not exist and the second fails
    with an empty message. *)
Lemma batch_is_split_in_input_order_witness :
  exists results errors,
    last (trace (handle_classify Example.world
                   (classify_request None cat_dog 1
                      ["cat.png"; "huge.png"; "missing.png"])))
      (Out (Progress 0 0))
      = Out (ClassifyResponse "cpu" results errors) /\
    map (fun r => r_path r) results = ["cat.png"; "huge.png"] /\
    errors = [{| e_path := "missing.png";
                 e_error := "No such file or directory: missing.png" |}] /\
    length results + length errors = 3.
Proof.
  assert (Hload : from_pretrained Example.world
                    (model_name_of
                       (classify_request None cat_dog 1
                          ["cat.png"; "huge.png"; "missing.png"]))
                    (get_device Example.world) = inr clip) by reflexivity.
  assert (Htext : get_text_features clip
                    (fst (flatten_categories
                            (categories_of
                               (classify_request None cat_dog 1
                                  ["cat.png"; "huge.png"; "missing.png"]))))
                  = inr cat_dog_outputs) by reflexivity.
  destruct (@batch_is_split_in_input_order float float_arith Picture
              Example.world _ _ _ Hload Htext)
    as [results [errors [H1 [_ [H2 [H3 [H4 _]]]]]]].
  exists results, errors. split; [exact H1|]. split; [exact H2|].
  split; [exact H3|exact H4].
Defined.

(** The document [[]] is JSON and not an object. *)
Lemma non_object_document_is_an_uncaught_exception_witness :
  trace (main Sample.world Sample.input_array) = [] /\
  (exists e, outcome (main Sample.world Sample.input_array) = Raise e) /\
  exit_code (main Sample.world Sample.input_array) = 1%Z.
Proof.
  apply (@non_object_document_is_an_uncaught_exception float float_arith
           Picture Sample.world Sample.input_array "list").
  reflexivity.
Defined.

(** The [check] request on a machine with CUDA and without MPS. *)
Lemma check_loads_no_model_witness :
  main Sample.world Sample.input_check
  = ([Out (CheckResponse
             {| c_torch := true; c_transformers := true; c_pillow := true;
                c_device := "cuda";
                c_torch_version := "2.3.0";
                c_transformers_version := "4.41.0";
                c_pillow_version := "10.3.0" |})],
     Ret tt) /\
  filter is_call (trace (main Sample.world Sample.input_check)) = [] /\
  exit_code (main Sample.world Sample.input_check) = 0%Z.
Proof.
  apply (@check_loads_no_model float float_arith Picture Sample.world
           Sample.input_check Sample.check_request).
  - reflexivity.
  - reflexivity.
Defined.

(** The document [{}]. *)
Lemma empty_request_runs_with_defaults_witness :
  main Sample.world Sample.input_empty_object
  = ([Out (Status "Loading model on cuda...");
      LoadModel "openai/clip-vit-large-patch14" "cuda";
      Out (Status "Precomputing text features...");
      TextFeatures [];
      Out (ClassifyResponse "cuda" [] [])],
     Ret tt).
Proof.
  apply (@empty_request_runs_with_defaults float float_arith Picture
           Sample.world Sample.input_empty_object clip []).
  - reflexivity.
  - reflexivity.
  - reflexivity.
Defined.

(** The index of the mapping with two prompts for [cat] and one for
    [dog]. *)
Lemma index_rows_are_partitioned_witness :
  exists text_features category_indices,
    precompute_text_features clip cat_kitten_dog
      = ([TextFeatures (fst (flatten_categories cat_kitten_dog))],
         Ret (text_features, snd (flatten_categories cat_kitten_dog),
              category_indices)) /\
    length text_features = 3 /\
    Dict.keys category_indices = ["cat"; "dog"] /\
    concat (map snd category_indices) = [0; 1; 2].
Proof.
  assert (Hnd : NoDup (Dict.keys cat_kitten_dog)) by nodup_strings.
  assert (Htext : get_text_features clip
                    (fst (flatten_categories cat_kitten_dog))
                  = inr cat_kitten_dog_outputs) by reflexivity.
  destruct (@index_rows_are_partitioned float float_arith Picture clip
              cat_kitten_dog cat_kitten_dog_outputs Hnd Htext)
    as [tf [ci [H1 [H2 [_ [H3 H4]]]]]].
  exists tf, ci. split; [exact H1|]. split; [exact H2|].
  split; [exact H3|exact H4].
Defined.
